(** * The script compiler and decompiler of the Zanzarah database editor

    A shallow embedding of [compile], [decompile] and the annotation
    functions of [zanzarah-database-editor.py], with the static tables they
    read, and the properties of the script transformer proved about them.

    Conventions of the embedding:
    - a Python [str] is a [string]; an [ascii] stands for one character
      (code points 0 to 255);
    - a Python [dict] that is only read is an association list in source
      order ([dict_get] is [d.get(k)], [None] when the key is absent);
    - code that can raise returns a [result]: [Raise IndexError] for a list
      index out of range, [Raise KeyError] for a missing dictionary key;
    - the SQL connection is the pair of queries the resolvers run on it. *)

From Stdlib Require Import String Ascii List ZArith Lia Bool Arith DecimalString.
Import ListNotations.

Local Open Scope list_scope.
Local Open Scope string_scope.

(** ** Python built-ins used by the script code *)

Module Py.

(** The newline character and the one-character strings the code splits
    and joins on. *)
Definition NL : ascii := "010"%char.
Definition nl : string := String NL "".

(** Exceptions and results. *)
Inductive exn : Set := IndexError | KeyError.

Inductive result (A : Type) : Type :=
| Return (a : A)
| Raise (e : exn).

Arguments Return {A} a.
Arguments Raise {A} e.

Definition bind {A B} (m : result A) (k : A -> result B) : result B :=
  match m with
  | Return a => k a
  | Raise e => Raise e
  end.

(** [l[n]] for a literal index [n >= 0]. *)
Definition getitem {A} (l : list A) (n : nat) : result A :=
  match nth_error l n with
  | Some x => Return x
  | None => Raise IndexError
  end.

(** [l[i]] for a computed integer: negative indices count from the end. *)
Definition getitemZ {A} (l : list A) (i : Z) : result A :=
  let len := Z.of_nat (length l) in
  if (0 <=? i)%Z then getitem l (Z.to_nat i)
  else if (- len <=? i)%Z then getitem l (Z.to_nat (len + i))
  else Raise IndexError.

(** [str.isspace] on one character: the whitespace [str.strip()] removes. *)
Definition isspace (c : ascii) : bool :=
  let n := nat_of_ascii c in
  (((9 <=? n) && (n <=? 13)) || ((28 <=? n) && (n <=? 32))
   || (n =? 133) || (n =? 160))%nat.

Fixpoint lstrip (s : string) : string :=
  match s with
  | "" => ""
  | String c s' => if isspace c then lstrip s' else s
  end.

Fixpoint rstrip (s : string) : string :=
  match s with
  | "" => ""
  | String c s' =>
      match rstrip s' with
      | "" => if isspace c then "" else String c ""
      | r => String c r
      end
  end.

Definition strip (s : string) : string := rstrip (lstrip s).

(** [s.split(sep)] for a non-empty separator: a left-to-right scan for
    non-overlapping occurrences.  [skip] counts the characters of a matched
    separator still to be passed over.  The result is never empty. *)
Definition cons_head (c : ascii) (l : list string) : list string :=
  match l with
  | [] => [String c ""]
  | h :: t => String c h :: t
  end.

Fixpoint split_from (sep : string) (skip : nat) (s : string) : list string :=
  match s with
  | "" => [""]
  | String c s' =>
      match skip with
      | S k => split_from sep k s'
      | O =>
          if prefix sep s
          then "" :: split_from sep (String.length sep - 1) s'
          else cons_head c (split_from sep 0 s')
      end
  end.

Definition split (sep s : string) : list string := split_from sep 0 s.

(** [sep.join(l)]. *)
Definition join (sep : string) (l : list string) : string := String.concat sep l.

(** [' ' * n]. *)
Fixpoint spaces (n : nat) : string :=
  match n with
  | O => ""
  | S k => String " " (spaces k)
  end.

Definition startswith (s p : string) : bool := prefix p s.

(** [str(n)] for integers. *)
Definition str_of_Z (z : Z) : string := NilZero.string_of_int (Z.to_int z).
Definition str_of_nat (n : nat) : string := str_of_Z (Z.of_nat n).

(** [int(s)]: [None] stands for [ValueError].  Surrounding whitespace is
    dropped, one sign is allowed, then decimal digits with single
    underscores between them; more than [max_str_digits] digits are
    refused. *)
Definition int_isspace (c : ascii) : bool :=
  let n := nat_of_ascii c in
  (((9 <=? n) && (n <=? 13)) || (n =? 32) || (n =? 133) || (n =? 160))%nat.

Fixpoint int_lstrip (s : string) : string :=
  match s with
  | "" => ""
  | String c s' => if int_isspace c then int_lstrip s' else s
  end.

Fixpoint int_rstrip (s : string) : string :=
  match s with
  | "" => ""
  | String c s' =>
      match int_rstrip s' with
      | "" => if int_isspace c then "" else String c ""
      | r => String c r
      end
  end.

Definition is_digit (c : ascii) : bool :=
  let n := nat_of_ascii c in ((48 <=? n) && (n <=? 57))%nat.

Definition digit_value (c : ascii) : Z := Z.of_nat (nat_of_ascii c - 48).

Definition max_str_digits : nat := 4300.

Fixpoint digits_from (s : string) (acc : Z) (count : nat) (after_digit : bool)
  : option (Z * nat) :=
  match s with
  | "" => if after_digit then Some (acc, count) else None
  | String c s' =>
      if is_digit c
      then digits_from s' (10 * acc + digit_value c)%Z (S count) true
      else if (c =? "_")%char
           then if after_digit then digits_from s' acc count false else None
           else None
  end.

Definition unsigned_of_str (s : string) : option Z :=
  match digits_from s 0%Z 0 false with
  | Some (v, count) => if (max_str_digits <? count)%nat then None else Some v
  | None => None
  end.

Definition int (s : string) : option Z :=
  match int_rstrip (int_lstrip s) with
  | String "+" r => unsigned_of_str r
  | String "-" r => option_map Z.opp (unsigned_of_str r)
  | t => unsigned_of_str t
  end.

(** A dictionary that is only read. *)
Definition dict (V : Type) : Type := list (string * V).

Fixpoint dict_get {V} (k : string) (d : dict V) : option V :=
  match d with
  | [] => None
  | (k', v) :: d' => if (k' =? k)%string then Some v else dict_get k d'
  end.

(** [d[k] = v]: an existing key keeps its place and takes the new value. *)
Fixpoint dict_set {V} (k : string) (v : V) (d : dict V) : dict V :=
  match d with
  | [] => [(k, v)]
  | (k', v') :: d' =>
      if (k' =? k)%string then (k, v) :: d' else (k', v') :: dict_set k v d'
  end.

Definition dict_in {V} (k : string) (d : dict V) : bool :=
  match dict_get k d with Some _ => true | None => false end.

End Py.

Import Py.

Notation "x <- m ;; k" := (Py.bind m (fun x => k))
  (at level 61, m at next level, right associativity).

(** ** Static tables *)

Definition NONE_STRING : string := "-/-".

(** The last element class is the character U+2731, held as its three
    UTF-8 bytes. *)
Definition ELEMENT_CLASSES : list string :=
  [ NONE_STRING; "Nature"; "Air"; "Water"; "Light"; "Energy";
    "Psi"; "Stone"; "Ice"; "Fire"; "Dark"; "Chaos"; "Metal";
    String "226" (String "156" (String "177" "")) ].

Definition SCRIPT_COMMANDS : dict string :=
  [ ("!", "say");
    ("C", "setModel");
    ((String "034" ""), "choice");
    ("#", "waitForUser");
    ("$", "label");
    ("&", "setCamera");
    ("%", "exit");
    ("'", "wizform");
    ("(", "spell");
    ("8", "else");
    (")", "changeWaypoint");
    ("*", "fight");
    ("+", "lookAtPlayer");
    (",", "changeDatabase");
    ("-", "removeNpc");
    (".", "catchWizform");
    ("0", "killPlayer");
    ("5", "tradingCurrency");
    ("2", "tradingItem");
    ("3", "tradingSpell");
    ("4", "tradingWizform");
    ("1", "givePlayerCards");
    ("B", "setupGambling");
    ("6", "ifPlayerHasCards");
    ("@", "ifPlayerHasSpecials");
    ("=", "ifTriggerIsActive");
    ("9", "removePlayerCards");
    (":", "moveSystem");
    ("?", "movementSpeed");
    (";", "modifyWizform");
    ("<", "lockUserInput");
    (">", "modifyTrigger");
    ("A", "playAnimation");
    ("D", "ifIsWizform");
    ("E", "startPrelude");
    ("F", "npcWizFormEscapes");
    ("G", "dance");
    ("H", "setGlobal");
    ("I", "beginIf_global");
    ("J", "talk");
    ("K", "goto");
    ("L", "gotoRandomLabel");
    ("M", "ask");
    ("N", "chafferWizForms");
    ("O", "setNpcType");
    ("P", "deployNpcAtTrigger");
    ("Q", "delay");
    ("R", "gotoLabelByRandom");
    ("S", "ifCloseToWaypoint");
    ("T", "removeWizForms");
    ("U", "ifNpcModifierHasValue");
    ("V", "setNpcModifier");
    ("W", "defaultWizForm");
    ("X", "idle");
    ("Y", "ifPlayerIsClose");
    ("Z", "ifNumberOfNpcsIs");
    ("[", "startEffect");
    ((String "092" ""), "setTalkLabels");
    ("]", "setCollision");
    ("^", "tradeWizform");
    ("_", "createDynamicItems");
    ("`", "playVideo");
    ("a", "removeNpcAtTrigger");
    ("b", "revive");
    ("c", "lookAtTrigger");
    ("d", "ifTriggerIsEnabled");
    ("e", "playSound");
    ("f", "playInArena");
    ("g", "startActorEffect");
    ("h", "endActorEffect");
    ("i", "createSceneObjects");
    ("j", "evolveWizForm");
    ("k", "removeBehaviour");
    ("l", "unlockDoor");
    ("m", "endGame");
    ("n", "defaultDeck");
    ("o", "subGame");
    ("p", "modifyEffect");
    ("q", "playPlayerAnimation");
    ("s", "playAmyVoice");
    ("r", "createDynamicModel");
    ("t", "deploySound");
    ("u", "givePlayerPresent");
    ("7", "endIf") ].

Definition script_command_parameters : dict (list string) :=
  [ ("label", ["id"]);
    ("goto", ["labelId"]);
    ("gotoRandomLabel", ["int"; "int"]);
    ("say", ["dialogUid"; "silent"]);
    ("setModel", ["id"]);
    ("choice", ["ladelId"; "uid"]);
    ("setCamera", ["code"]);
    ("wizform", ["deckSlot"; "fairyId"; "level"]);
    ("spell", ["deckSlot"; "spellSlot"; "spellId"]);
    ("changeWaypoint", ["startId"; "endId"]);
    ("fight", ["sceneId"; "multipleEnemiesBool"]);
    ("lookAtPlayer", ["seconds/10"; "mode"]);
    ("changeDatabase", ["uid"]);
    ("tradingCurrency", ["uid"]);
    ("tradingItem", ["price"; "uid"]);
    ("tradingSpell", ["price"; "uid"]);
    ("tradingWizform", ["price"; "uid"]);
    ("givePlayerCards", ["amount"; "cardType"; "id"]);
    ("setupGambling", ["amount"; "cardType"; "id"]);
    ("ifPlayerHasCards", ["amount"; "cardType"; "id"]);
    ("ifPlayerHasSpecials", ["condition"; "argument"]);
    ("ifTriggerIsActive", ["id"]);
    ("ifIsWizform", ["fairyId"]);
    ("removePlayerCards", ["amount"; "cardType"; "id"]);
    ("moveSystem", ["waypointMode"; "waypointCategory"]);
    ("movementSpeed", ["int"]);
    ("modifyWizform", ["subcommand"; "argument"]);
    ("lockUserInput", ["bool"]);
    ("modifyTrigger", ["enable"; "id"; "triggerId"]);
    ("playAnimation", ["animationType"; "UNUSED"]);
    ("talk", ["uid"]);
    ("chafferWizForms", ["uid1"; "uid2"; "uid3"]);
    ("setNpcType", ["int"]);
    ("deployNpcAtTrigger", ["id"; "NpcOrPlayerBool"]);
    ("delay", ["duration"]);
    ("ifCloseToWaypoint", ["waypointId"]);
    ("ifNpcModifierHasValue", ["id"]);
    ("setNpcModifier", ["scene"; "triggerId"; "value"]);
    ("defaultWizForm", ["fairyId"; "groupOrSlot"; "level"]);
    ("ifPlayerIsClose", ["distance"]);
    ("ifNumberOfNpcsIs", ["amount"; "uid"]);
    ("startEffect", ["effectType"; "triggerId"]);
    ("setTalkLabels", ["yes"; "no"; "talkMode"]);
    ("setCollision", ["isSolidBool"]);
    ("tradeWizform", ["id"]);
    ("createDynamicItems", ["itemId"; "count"; "triggerId"]);
    ("playVideo", ["videoId"]);
    ("removeNpcAtTrigger", ["triggerId"]);
    ("lookAtTrigger", ["duration"; "triggerId"]);
    ("ifTriggerIsEnabled", ["triggerId"]);
    ("playSound", ["soundId"]);
    ("playInArena", ["arg"; "UNUSED"]);
    ("createSceneObjects", ["objectType"]);
    ("removeBehaviour", ["id"]);
    ("unlockDoor", ["id"; "isMetalDoorBool"]);
    ("defaultDeck", ["groupId"; "level"; "UNUSED"]);
    ("subGame", ["gameType"; "size"; "exitLabel"]);
    ("playPlayerAnimation", ["animationType"; "UNUSED"]);
    ("playAmyVoice", ["string"]);
    ("createDynamicModel", ["UNUSED"; "UNUSED"; "UNUSED"]);
    ("deploySound", ["id"; "triggerId"]);
    ("givePlayerPresent", ["UNUSED"]);
    ("startActorEffect", ["id"]) ].

(** [REVERSE_SCRIPT_COMMANDS] is filled by a loop over the items of
    [SCRIPT_COMMANDS]. *)
Definition REVERSE_SCRIPT_COMMANDS : dict string :=
  fold_left (fun d kv => dict_set (snd kv) (fst kv) d) SCRIPT_COMMANDS [].

Definition AVAILABLE_ANIMATIONS : list string :=
  [ "Idle0"; "Jump"; "Run"; "RunForwardLeft"; "RunForwardRight";
    "Back"; "Dance"; "Fall"; "Rotate"; "Right";
    "Left"; "Idle1"; "Idle2"; "Talk0"; "Talk1";
    "Talk2"; "Talk3"; "Walk0"; "Walk1"; "Walk2";
    "SpecialIdle0"; "SpecialIdle1"; "SpecialIdle2"; "FlyForward"; "FlyBack";
    "FlyLeft"; "FlyRight"; "Loadup"; "Hit"; "Joy";
    "ThudGround"; "UseFairyPipe"; "UseSeaShell"; "Smith"; "Astonished";
    "Surprise0"; "Surprise1"; "Stop"; "ThudGround2"; "PixieFlounder";
    "JumpHigh" ].

(** ** The resolvers *)

(** What the script code sees of the SQL connection: [execute] with
    parameters followed by [fetchone] (the single selected text column of the
    first row, if any) and [execute] followed by [fetchall] (rows of a text
    key and an integer card id). *)
Record sql_connection : Type := {
  fetchone : string -> list string -> option string;
  fetchall : string -> list (string * Z)
}.

Definition fetchString (sql : sql_connection) (query_string : string)
  (params : list string) : option string :=
  fetchone sql query_string params.

Definition fetchStringOrNull (sql : sql_connection) (query_string : string)
  (params : list string) : string :=
  match fetchString sql query_string params with
  | None => "NULL"
  | Some result => result
  end.

Definition resolveLabel (sql : sql_connection) (uid : string) : string :=
  fetchStringOrNull sql "select col_0_String from _fb0x02 where UID =?" [uid].

Definition resolveDialog (sql : sql_connection) (uid : string) : string :=
  fetchStringOrNull sql "select col_0_String from _fb0x06 where UID =?" [uid].

Definition getCardEntityId (card_id : Z) : Z :=
  Z.land (Z.shiftr card_id 16) 65535.

(** The loop of [resolveCardIdName] over the fetched rows: the label of the
    first card whose entity id prints as [entity_id]. *)
Fixpoint firstCardLabel (sql : sql_connection) (card_values : list (string * Z))
  (entity_id : string) : string :=
  match card_values with
  | [] => "NULL"
  | (name_id, card_id) :: rest =>
      if (str_of_Z (getCardEntityId card_id) =? entity_id)%string
      then resolveLabel sql (hd "" (split "|" name_id))
      else firstCardLabel sql rest entity_id
  end.

Definition resolveCardIdName (sql : sql_connection) (query_string : string)
  (entity_id : string) : string :=
  firstCardLabel sql (fetchall sql query_string) entity_id.

Definition resolveFairyName (sql : sql_connection) (fairy_id : string) : string :=
  resolveCardIdName sql "select col_1_ForeignKey, col_3_Integer from _fb0x01"
    fairy_id.

Definition resolveCardDescription (sql : sql_connection)
  (card_type card_id : string) : string :=
  if (card_type =? "0")%string then
    "Item: " ++ resolveCardIdName sql
      "select col_0_ForeignKey, col_1_Integer from _fb0x04" card_id
  else if (card_type =? "1")%string then
    "Spell: " ++ resolveCardIdName sql
      "select col_0_ForeignKey, col_2_Integer from _fb0x03" card_id
  else if (card_type =? "2")%string then
    "Fairy: " ++ resolveFairyName sql card_id
  else if (card_type =? "3")%string then "Blank"
  else "NULL".

(** ** The compiler *)

Definition splitByWhitespace (s : string) : list string :=
  filter (fun t => negb (t =? "")%string) (split " " s).

Definition makeError (line_counter : nat) (message : string) : string :=
  "Line " ++ str_of_nat (line_counter + 1) ++ ": " ++ message.

(** [compile] returns [[True, code]] or [[False, errors]]. *)
Inductive compile_result : Type :=
| Compiled (code : string)
| Failed (errors : list string).

(** The tokens of a source line: what is left of the first [//], split at
    spaces. *)
Definition tokenize (line : string) : list string :=
  splitByWhitespace (hd "" (split "//" line)).

(** The arity test of one command line: the message of the error, if any. *)
Definition arity_error (tokens : list string) (command : string) : option string :=
  match dict_get command script_command_parameters with
  | Some parameters =>
      if negb (length tokens - 1 =? length parameters)%nat
      then Some ("Command " ++ command ++ " takes exactly " ++
                 str_of_nat (length parameters) ++ " arguments: " ++
                 join ", " parameters)
      else None
  | None =>
      if negb (length tokens =? 1)%nat
      then Some ("Command takes no arguments: " ++ command)
      else None
  end.

(** One turn of the loop of [compile] on the state [(output, errors)]; an
    error leaves the turn by [continue]. *)
Definition compile_line (index : nat) (line : string)
  (st : string * list string) : string * list string :=
  let '(output, errors) := st in
  let tokens := tokenize line in
  match tokens with
  | [] => (output ++ join "." (tl tokens), errors)
  | command :: _ =>
      match dict_get command REVERSE_SCRIPT_COMMANDS with
      | None =>
          (output, (errors ++ [makeError index ("Unknown command: " ++ command)])%list)
      | Some opcode =>
          match arity_error tokens command with
          | Some message => (output, (errors ++ [makeError index message])%list)
          | None =>
              let output := if (0 <? index)%nat then output ++ nl else output in
              let output := output ++ opcode in
              let output :=
                if (1 <? length tokens)%nat then output ++ "." else output in
              (output ++ join "." (tl tokens), errors)
          end
      end
  end.

Definition enumerate {A} (l : list A) : list (nat * A) :=
  combine (seq 0 (length l)) l.

Definition compile_loop (lines : list (nat * string))
  (st : string * list string) : string * list string :=
  fold_left (fun st il => compile_line (fst il) (snd il) st) lines st.

Definition compile (script : string) : compile_result :=
  let '(output, errors) := compile_loop (enumerate (split nl script)) ("", []) in
  if (length errors =? 0)%nat then Compiled (output ++ nl) else Failed errors.

(** ** The annotation engine *)

Definition indexListByMaybeInt (string_list : list string)
  (maybe_integer : string) : result string :=
  match int maybe_integer with
  | Some index =>
      if ((0 <=? index) && (index <? Z.of_nat (length string_list)))%Z
      then getitemZ string_list index
      else Return "NULL"
  | None => Return "NULL"
  end.

Definition makeDecompiledSpecialsComment (arguments : list string)
  : result string :=
  a0 <- getitem arguments 0 ;;
  if (a0 =? "1")%string then
    a1 <- getitem arguments 1 ;;
    Return ("; Player has" ++ (if (a1 =? "0")%string then " no" else "")
            ++ " Fairy in Deck")
  else if (a0 =? "2")%string then
    Return "; Player has at least n fairies"
  else if (a0 =? "3")%string then
    a1 <- getitem arguments 1 ;;
    class <- indexListByMaybeInt ELEMENT_CLASSES a1 ;;
    Return ("; Player can show " ++ class ++ " Fairy")
  else Return "".

Definition makeActorEffectComment (id_argument : string) : string :=
  if (id_argument =? "0")%string then "; Rain clouds with lightning"
  else if (id_argument =? "1")%string then "; Orange sphere"
  else "".

Definition subcommand_descriptions : dict string :=
  [ ("0", "; Heal");
    ("1", "; Add exp");
    ("2", "; Clear status effects");
    ("8", "; Add exp to almost next level");
    ("16", "; Revive fairy");
    ("17", "; Fill up mana");
    ("18", "; Rename fairy") ].

Definition modes : dict string :=
  [ ("-1", "Idle: Don't look at player");
    ("1", "Rotate to player");
    ("2", "Rotate to player smoothly");
    ("3", "Rotate to player like a billboard") ].

Definition dict_getitem {V} (k : string) (d : dict V) : result V :=
  match dict_get k d with
  | Some v => Return v
  | None => Raise KeyError
  end.

Definition is_any (command : string) (names : list string) : bool :=
  existsb (fun n => (command =? n)%string) names.

Definition makeDecompiledParameterComment (command : string)
  (arguments : list string) (sql : sql_connection) : result string :=
  parameter_names <- dict_getitem command script_command_parameters ;;
  let result := " // " ++ join ", " parameter_names in
  if (command =? "wizform")%string then
    a1 <- getitem arguments 1 ;;
    Return (result ++ "; " ++ resolveFairyName sql a1)
  else if is_any command ["defaultWizForm"; "ifIsWizform"] then
    a0 <- getitem arguments 0 ;;
    Return (result ++ "; " ++ resolveFairyName sql a0)
  else if is_any command ["say"; "talk"] then
    a0 <- getitem arguments 0 ;;
    Return (result ++ "; " ++ resolveDialog sql a0)
  else if (command =? "choice")%string then
    a1 <- getitem arguments 1 ;;
    Return (result ++ "; " ++ resolveDialog sql a1)
  else if is_any command ["givePlayerCards"; "setupGambling";
                          "ifPlayerHasCards"; "removePlayerCards"] then
    a1 <- getitem arguments 1 ;;
    a2 <- getitem arguments 2 ;;
    Return (result ++ "; " ++ resolveCardDescription sql a1 a2)
  else if (command =? "modifyWizform")%string then
    a0 <- getitem arguments 0 ;;
    if (a0 =? "7")%string then
      a1 <- getitem arguments 1 ;;
      Return (result ++ "; Evolve to " ++ resolveFairyName sql a1)
    else
      match dict_get a0 subcommand_descriptions with
      | Some description => Return (result ++ "; " ++ description)
      | None => Return result
      end
  else if (command =? "ifPlayerHasSpecials")%string then
    comment <- makeDecompiledSpecialsComment arguments ;;
    Return (result ++ comment)
  else if (command =? "lookAtPlayer")%string then
    a1 <- getitem arguments 1 ;;
    match dict_get a1 modes with
    | Some mode => Return (result ++ "; " ++ mode)
    | None => Return result
    end
  else if is_any command ["playAnimation"; "playPlayerAnimation"] then
    a0 <- getitem arguments 0 ;;
    animation <- indexListByMaybeInt AVAILABLE_ANIMATIONS a0 ;;
    Return (result ++ "; Animation: " ++ animation)
  else if (command =? "startActorEffect")%string then
    a0 <- getitem arguments 0 ;;
    Return (result ++ makeActorEffectComment a0)
  else Return result.

(** ** The decompiler *)

(** One turn of the loop of [decompile] on the state
    [(result, indentation)]. *)
Definition decompile_line (sql : sql_connection) (line : string)
  (st : string * Z) : result (string * Z) :=
  let '(result, indentation) := st in
  let tokens := split "." (strip line) in
  t0 <- getitem tokens 0 ;;
  match dict_get t0 SCRIPT_COMMANDS with
  | Some command =>
      let indentation :=
        if (command =? "endIf")%string then Z.max (indentation - 4) 0
        else indentation in
      let result :=
        if negb (command =? "else")%string
        then result ++ spaces (Z.to_nat indentation) else result in
      let result := result ++ command in
      let result :=
        if (1 <? length tokens)%nat
        then result ++ " " ++ join " " (tl tokens) else result in
      let indentation :=
        if startswith command "if" then (indentation + 4)%Z else indentation in
      result <-
        (if dict_in command script_command_parameters
         then comment <- makeDecompiledParameterComment command (tl tokens) sql ;;
              Return (result ++ comment)
         else Return result) ;;
      Return (result ++ nl, indentation)
  | None => Return (result ++ line ++ nl, indentation)
  end.

Fixpoint decompile_loop (sql : sql_connection) (lines : list string)
  (st : string * Z) : result (string * Z) :=
  match lines with
  | [] => Return st
  | line :: rest =>
      st' <- decompile_line sql line st ;;
      decompile_loop sql rest st'
  end.

Definition decompile (sql : sql_connection) (script : string) : result string :=
  st <- decompile_loop sql (split nl script) ("", 0%Z) ;;
  Return (fst st).

(** A connection to an empty database. *)
Definition empty_db : sql_connection :=
  {| fetchone := fun _ _ => None; fetchall := fun _ => [] |}.

(** * Vocabulary of the statements *)

Fixpoint count_char (c : ascii) (s : string) : nat :=
  match s with
  | "" => 0
  | String a s' => (if (a =? c)%char then 1 else 0) + count_char c s'
  end.

(** [all_chars p s]: every character of [s] passes the test [p]. *)
Fixpoint all_chars (p : ascii -> bool) (s : string) : bool :=
  match s with
  | "" => true
  | String a s' => p a && all_chars p s'
  end.

(** What one line adds to the output and to the errors. *)
Definition emitted (index : nat) (line : string) : string :=
  fst (compile_line index line ("", [])).

Definition reported (index : nat) (line : string) : list string :=
  snd (compile_line index line ("", [])).

Fixpoint flat (l : list string) : string :=
  match l with
  | [] => ""
  | x :: l' => x ++ flat l'
  end.

(** The error message a line deserves, read off its tokens: an unknown
    first token, or a known command with the wrong number of arguments. *)
Definition line_message (line : string) : option string :=
  match tokenize line with
  | [] => None
  | command :: _ =>
      if dict_in command REVERSE_SCRIPT_COMMANDS
      then arity_error (tokenize line) command
      else Some ("Unknown command: " ++ command)
  end.

Definition collected_errors (lines : list string) : list string :=
  flat_map
    (fun il => match line_message (snd il) with
               | Some message =>
                   ["Line " ++ str_of_nat (fst il + 1) ++ ": " ++ message]
               | None => []
               end)
    (enumerate lines).

(** The text a well-formed command line is packed into. *)
Definition packed_line (opcode : string) (args : list string) : string :=
  opcode ++ match args with [] => "" | _ :: _ => "." ++ join "." args end.

(** An opcode: one character that is not whitespace. *)
Definition opcode_ok (opcode : string) : bool :=
  match opcode with
  | String c "" => negb (isspace c)
  | _ => false
  end.

Definition tokens_of (line : string) : list string := split "." (strip line).

(** The mnemonic a packed line decompiles to, if its first token is an
    opcode. *)
Definition mnemonic_of (line : string) : option string :=
  dict_get (hd "" (tokens_of line)) SCRIPT_COMMANDS.

(** The arguments as they are printed after the mnemonic. *)
Definition printed_args (tokens : list string) : string :=
  if (1 <? length tokens)%nat then " " ++ join " " (tl tokens) else "".

(** The comment written after a command. *)
Definition comment_of (sql : sql_connection) (command : string)
  (args : list string) : result string :=
  if dict_in command script_command_parameters
  then makeDecompiledParameterComment command args sql
  else Return "".

Fixpoint leading_spaces (s : string) : nat :=
  match s with
  | String " " s' => S (leading_spaces s')
  | _ => 0
  end.

Definition not_newline (c : ascii) : bool := negb (c =? NL)%char.

(** The connection never answers with a string that holds a newline. *)
Definition resolver_newline_free (sql : sql_connection) : Prop :=
  forall query params s,
    fetchone sql query params = Some s -> count_char NL s = 0.

(** An argument that does not name an entry of a static table: not a
    number, negative, or at least the length of the table. *)
Definition unresolvable (string_list : list string) (argument : string) : Prop :=
  match int argument with
  | None => True
  | Some index => (index < 0 \/ Z.of_nat (length string_list) <= index)%Z
  end.

(** A packed line whose opcode is followed by at least as many arguments
    as the command has parameters (every line that is not a command
    qualifies). *)
Definition enough_arguments (line : string) : Prop :=
  match mnemonic_of line with
  | Some command =>
      match dict_get command script_command_parameters with
      | Some parameters => length parameters <= length (tl (tokens_of line))
      | None => True
      end
  | None => True
  end.

(** The number of arguments a command takes. *)
Definition arity (command : string) : nat :=
  match dict_get command script_command_parameters with
  | Some parameters => length parameters
  | None => 0
  end.

Definition no_whitespace (token : string) : bool :=
  all_chars (fun c => negb (isspace c)) token.

Definition no_dot (token : string) : bool :=
  all_chars (fun c => negb (c =? ".")%char) token.


(** A command line that survives the packed form: its arguments hold no
    dot, and its opcode is not the dot itself. *)
Definition dot_free_command_line (line : string) : Prop :=
  exists command args opcode,
    tokenize line = command :: args
    /\ dict_get command REVERSE_SCRIPT_COMMANDS = Some opcode
    /\ length args = arity command
    /\ Forall (fun a => no_whitespace a = true) args
    /\ Forall (fun a => no_dot a = true) args
    /\ command <> "catchWizform".

(** [reproduces sql commands text]: [text] is the listing of [commands], one
    per line, each as its mnemonic and arguments separated by single spaces,
    after some indentation and before the comment of the annotation engine,
    and closed by one empty line. *)
Inductive reproduces (sql : sql_connection) : list (list string) -> string -> Prop :=
| reproduces_end : reproduces sql [] nl
| reproduces_line command args depth comment commands text :
    comment_of sql command args = Return comment ->
    reproduces sql commands text ->
    reproduces sql ((command :: args) :: commands)
      (spaces depth ++ join " " (command :: args) ++ comment ++ nl ++ text).

(** What a well-formed source line is packed into. *)
Definition pack (line : string) : string :=
  match tokenize line with
  | command :: args =>
      match dict_get command REVERSE_SCRIPT_COMMANDS with
      | Some opcode => packed_line opcode args
      | None => ""
      end
  | [] => ""
  end.

(** [no_comment s]: the text [//] occurs nowhere in [s]. *)
Fixpoint no_comment (s : string) : bool :=
  match s with
  | "" => true
  | String _ s' => negb (prefix "//" s) && no_comment s'
  end.

From Stdlib Require Import Permutation.

(** * Further vocabulary: the compiled text as a whole *)

(** A source line without tokens: empty, spaces only, or only a comment. *)
Definition is_blank (line : string) : bool :=
  match tokenize line with
  | [] => true
  | _ :: _ => false
  end.

(** The lines of the packed text of a script: the packed form of every line
    that is not blank, and one empty line in front when the first line of
    the script is blank. *)
Definition packed_lines (lines : list string) : list string :=
  match lines with
  | [] => []
  | first :: rest =>
      (if is_blank first then "" else pack first)
      :: map pack (filter (fun l => negb (is_blank l)) rest)
  end.

Definition first_is_slash (s : string) : bool :=
  match s with
  | String d _ => (d =? "/")%char
  | "" => false
  end.

(** The tokens of a command that was read from a line of a script. *)
Definition read_tokens (tokens : list string) : Prop :=
  Forall (fun t => t <> "" /\ count_char " " t = 0) tokens
  /\ Forall (fun t => no_comment t = true) tokens
  /\ Forall (fun t => count_char NL t = 0) tokens
  /\ match tokens with
     | command :: args => length args = arity command
     | [] => False
     end.

(** An indentation the decompiler can be at: a non-negative multiple of
    four. *)
Definition depth_ok (indentation : Z) : Prop :=
  (0 <= indentation)%Z /\ (4 | indentation)%Z.

(** The indentation at which the loop of [decompile] leaves a list of lines. *)
Definition final_depth (sql : sql_connection) (lines : list string) : result Z :=
  st <- decompile_loop sql lines ("", 0%Z) ;; Return (snd st).

Definition result_string_eqb (a b : result string) : bool :=
  match a, b with
  | Return x, Return y => (x =? y)%string
  | _, _ => false
  end.

(** * More of the source: helpers of the editor and the search cache *)

(** Text with characters beyond code point 255 (the two circles of the stat
    display, the star of the last element class) is held in UTF-8: each of
    these characters is three bytes.  Repeating, joining and replacing them is
    the same on the bytes as on the characters. *)

(** [str.replace(old, new)] for a non-empty [old]: the occurrences of [old]
    are found from left to right, without overlap. *)
Fixpoint replace_from (old new : string) (skip : nat) (s : string) : string :=
  match s with
  | "" => ""
  | String c s' =>
      match skip with
      | S k => replace_from old new k s'
      | O =>
          if prefix old s
          then new ++ replace_from old new (String.length old - 1) s'
          else String c (replace_from old new 0 s')
      end
  end.

Definition replace (old new s : string) : string := replace_from old new 0 s.

(** [sub in s]. *)
Fixpoint contains (sub s : string) : bool :=
  prefix sub s ||
  match s with
  | "" => false
  | String _ s' => contains sub s'
  end.

(** [s * n]: nothing when [n] is not positive. *)
Definition times (s : string) (n : Z) : string :=
  flat (repeat s (Z.to_nat n)).

(** A value of the list [MANA_LEVELS], which holds integers and a string. *)
Inductive py_value : Type :=
| Int (z : Z)
| Str (s : string).

(** [str(v)]. *)
Definition str (v : py_value) : string :=
  match v with
  | Int z => str_of_Z z
  | Str s => s
  end.

Definition MANA_LEVELS : list py_value :=
  [Int 5; Int 15; Int 30; Int 40; Int 55; Str NONE_STRING].

Definition resolveMana (id : Z) : result py_value :=
  if (id =? Z.of_nat (length MANA_LEVELS) - 1)%Z then getitemZ MANA_LEVELS (-1)
  else if ((id <? 0) || (Z.of_nat (length MANA_LEVELS) <=? id))%Z
       then Return (Str "NULL")
       else level <- getitemZ MANA_LEVELS id ;; Return (Str (str level)).

(** [DBSearchView.__resolveElementClass]. *)
Definition resolveElementClass (id : Z) : result string :=
  if ((id <? 0) || (Z.of_nat (length ELEMENT_CLASSES) <=? id))%Z
  then Return "NULL"
  else getitemZ ELEMENT_CLASSES id.

(** ['NPC(E12F912) Rufus' -> 'E12F912']. *)
Definition extractUid (s : string) : result string :=
  inner <- getitem (split "(" s) 1 ;;
  getitem (split ")" inner) 0.

(** The filled and the hollow circle, U+25CF and U+25CB. *)
Definition filled_circle : string :=
  String "226" (String "151" (String "143" "")).
Definition hollow_circle : string :=
  String "226" (String "151" (String "139" "")).

Definition toCircleString (value max_value : Z) : string :=
  times filled_circle value ++ times hollow_circle (max_value - value).

Definition toStatString (value : Z) : string :=
  toCircleString (value + 1) 5.

Definition makeStringSearchable (s : string) : result string :=
  star <- getitemZ ELEMENT_CLASSES (-1) ;;
  Return (replace star "*" (replace hollow_circle "" (replace filled_circle "*" s))).

(** ** The search cache *)

Record IndexedItem : Type := {
  sort_key : string;
  displayed_text : string;
  string_to_search : string;
  search_suggestion : string
}.

Section SearchCache.

(** [str.casefold], which the cache applies to what it stores and to what
    is searched for.  Nothing is assumed about it. *)
Variable casefold : string -> string.

(** [cache.appendToIndex(sort_key, displayed_text, search_suggestion,
    extra_info)]: the cache with the new item at its end. *)
Definition appendToIndex (cache : list IndexedItem)
  (sort_key displayed_text search_suggestion extra_info : string)
  : result (list IndexedItem) :=
  let to_search :=
    casefold sort_key ++ casefold displayed_text ++ casefold extra_info in
  searchable <- makeStringSearchable to_search ;;
  Return (cache ++ [ {| sort_key := casefold sort_key;
                        displayed_text := replace nl " " displayed_text;
                        string_to_search := searchable;
                        search_suggestion := search_suggestion |} ])%list.

Definition searchSubstrings (cache : list IndexedItem)
  (substring_list : list string) : list (string * string) :=
  let matches :=
    fold_left
      (fun matches substring =>
         filter (fun item => contains substring (string_to_search item))
           matches)
      (map casefold substring_list) cache in
  map (fun item => (displayed_text item, search_suggestion item)) matches.

Definition appendOtherCache (cache other_cache : list IndexedItem)
  : list IndexedItem :=
  (cache ++ other_cache)%list.

(** [DBSearchView.searchDBCache]. *)
Definition searchDBCache (db_cache : list IndexedItem) (search_query : string)
  : list (string * string) :=
  searchSubstrings db_cache (splitByWhitespace search_query).

(** An item passes when every substring occurs in its search string. *)
Definition matches_all (substring_list : list string) (item : IndexedItem)
  : bool :=
  forallb (fun substring =>
             contains (casefold substring) (string_to_search item))
    substring_list.

End SearchCache.

(** The dictionary the loop after [SCRIPT_COMMANDS] fills from a dictionary
    [d]: every value of [d] mapped to its key. *)
Definition reversed (d : dict string) : dict string :=
  fold_left (fun r kv => dict_set (snd kv) (fst kv) r) d [].

Fixpoint distinct (l : list string) : bool :=
  match l with
  | [] => true
  | x :: l' => negb (existsb (String.eqb x) l') && distinct l'
  end.

(** An item of the cache that is shown on one line. *)
Definition one_line (item : IndexedItem) : Prop :=
  count_char NL (displayed_text item) = 0.

Definition shown (item : IndexedItem) : string * string :=
  (displayed_text item, search_suggestion item).

(** * The embedding at work *)

Example compile_empty : compile "" = Compiled nl.
Proof. reflexivity. Qed.

Example compile_exit : compile "exit" = Compiled ("%" ++ nl).
Proof. reflexivity. Qed.

Example compile_two_commands :
  compile ("  say 12 0   // greet" ++ nl ++ "goto 3")
  = Compiled ("!.12.0" ++ nl ++ "K.3" ++ nl).
Proof. reflexivity. Qed.

Example compile_absorbs_blank_lines :
  compile ("exit" ++ nl ++ nl ++ "exit") = Compiled ("%" ++ nl ++ "%" ++ nl).
Proof. reflexivity. Qed.

Example decompile_unknown_opcode :
  decompile empty_db "~.1.2" = Return ("~.1.2" ++ nl).
Proof. reflexivity. Qed.

Example decompile_endIf_floor :
  decompile empty_db ("=.1" ++ nl ++ "7" ++ nl ++ " 7")
  = Return ("ifTriggerIsActive 1 // id" ++ nl ++ "endIf" ++ nl ++ "endIf" ++ nl).
Proof. reflexivity. Qed.

Example split_on_comment : split "//" "a///b" = ["a"; "/b"].
Proof. reflexivity. Qed.

Example split_on_space : split " " " a  b " = [""; "a"; ""; "b"; ""].
Proof. reflexivity. Qed.

Example int_of_strings :
  map int [" 3 "; "+3"; "-0"; "1_0"; "_1"; "1_"; "1__0"; "+ 1"; ""; "-"; "x"; "-12"]
  = [Some 3; Some 3; Some 0; Some 10; None; None; None; None; None; None; None;
     Some (-12)]%Z.
Proof. reflexivity. Qed.

Example str_of_integers :
  map str_of_Z [0; 7; 42; -5; 65535]%Z = ["0"; "7"; "42"; "-5"; "65535"].
Proof. reflexivity. Qed.

Example comment_cuts_a_token : tokenize "goto a//b c" = ["goto"; "a"].
Proof. reflexivity. Qed.

Example replace_is_left_to_right : replace "aa" "b" "aaa" = "ba".
Proof. reflexivity. Qed.

Example extractUid_docstring : extractUid "NPC(E12F912) Rufus" = Return "E12F912".
Proof. reflexivity. Qed.

Example toStatString_docstring :
  toStatString 2
  = filled_circle ++ filled_circle ++ filled_circle
    ++ hollow_circle ++ hollow_circle.
Proof. reflexivity. Qed.

Example resolveMana_levels :
  map resolveMana [-1; 0; 4; 5; 6]%Z
  = [Return (Str "NULL"); Return (Str "5"); Return (Str "55");
     Return (Str "-/-"); Return (Str "NULL")].
Proof. reflexivity. Qed.

(** * Facts about the string built-ins *)

Module StrFacts.

Lemma sapp_nil_r (s : string) : s ++ "" = s.
Proof. induction s as [|a s IH]; simpl; congruence. Qed.

Lemma sapp_assoc (a b c : string) : (a ++ b) ++ c = a ++ (b ++ c).
Proof. induction a as [|x a IH]; simpl; congruence. Qed.

Lemma count_char_app c (a b : string) :
  count_char c (a ++ b) = count_char c a + count_char c b.
Proof. induction a as [|x a IH]; simpl; lia. Qed.

Lemma all_chars_app p (a b : string) :
  all_chars p (a ++ b) = all_chars p a && all_chars p b.
Proof.
  induction a as [|x a IH]; simpl; [reflexivity|].
  rewrite IH. now rewrite andb_assoc.
Qed.

Lemma all_chars_count p c s :
  p c = false -> all_chars p s = true -> count_char c s = 0.
Proof.
  intros Hc. induction s as [|a s IH]; simpl; [reflexivity|].
  intros H. apply andb_true_iff in H as [Ha Hs].
  destruct (Ascii.eqb_spec a c) as [->|_]; [congruence|].
  now rewrite IH.
Qed.

Lemma count_spaces c n : c <> " "%char -> count_char c (spaces n) = 0.
Proof.
  intros Hc. induction n as [|n IH]; cbn [spaces count_char]; [reflexivity|].
  destruct (Ascii.eqb_spec " "%char c) as [E|_]; [congruence|exact IH].
Qed.

(** *** [split] on a one-character separator *)

Lemma prefix_nil s : prefix "" s = true.
Proof. now destruct s. Qed.

Lemma split_cons c a s :
  split (String c "") (String a s) =
  if (a =? c)%char then "" :: split (String c "") s
  else cons_head a (split (String c "") s).
Proof.
  unfold split. simpl.
  destruct (ascii_dec c a) as [->|N].
  - now rewrite prefix_nil, Ascii.eqb_refl.
  - destruct (Ascii.eqb_spec a c) as [->|_]; [congruence|reflexivity].
Qed.

Lemma split_from_not_nil sep k s : split_from sep k s <> [].
Proof.
  revert k. induction s as [|a s IH]; intros k; cbn [split_from];
    [discriminate|].
  destruct k; [|apply IH].
  destruct (prefix sep (String a s)); [discriminate|].
  specialize (IH 0). destruct (split_from sep 0 s); [congruence|discriminate].
Qed.

Lemma split_not_nil sep s : split sep s <> [].
Proof. apply split_from_not_nil. Qed.

Lemma split_free c s :
  count_char c s = 0 -> split (String c "") s = [s].
Proof.
  induction s as [|a s IH]; [reflexivity|].
  rewrite split_cons. simpl.
  destruct (a =? c)%char; [discriminate|]. simpl.
  intros H. now rewrite IH.
Qed.

Lemma split_app c (a b : string) :
  count_char c a = 0 ->
  split (String c "") (a ++ String c b) = a :: split (String c "") b.
Proof.
  induction a as [|x a IH]; simpl append.
  - intros _. now rewrite split_cons, Ascii.eqb_refl.
  - rewrite split_cons. simpl.
    destruct (x =? c)%char; [discriminate|]. simpl.
    intros H. now rewrite IH.
Qed.

Lemma split_join c (l : list string) :
  l <> [] ->
  Forall (fun x => count_char c x = 0) l ->
  split (String c "") (join (String c "") l) = l.
Proof.
  induction l as [|x l IH]; [congruence|].
  intros _ H. inversion H as [|? ? Hx Hl]; subst.
  destruct l as [|y l].
  - simpl. now apply split_free.
  - change (join (String c "") (x :: y :: l))
      with (x ++ String c (join (String c "") (y :: l))).
    rewrite split_app by assumption.
    f_equal. apply IH; [discriminate|assumption].
Qed.

Lemma length_cons_head a l : l <> [] -> length (cons_head a l) = length l.
Proof. destruct l; [congruence|reflexivity]. Qed.

Lemma length_split c s :
  length (split (String c "") s) = count_char c s + 1.
Proof.
  induction s as [|a s IH]; [reflexivity|].
  rewrite split_cons. simpl count_char.
  destruct (a =? c)%char; simpl.
  - now rewrite IH.
  - rewrite length_cons_head by apply split_not_nil. exact IH.
Qed.

(** The pieces of a split hold only characters of the split string. *)
Lemma all_chars_cons_head p a l :
  p a = true -> Forall (fun x => all_chars p x = true) l ->
  Forall (fun x => all_chars p x = true) (cons_head a l).
Proof.
  intros Ha H. destruct l as [|h t]; simpl.
  - constructor; [simpl; now rewrite Ha|constructor].
  - inversion H; subst. constructor; [simpl; now rewrite Ha|assumption].
Qed.

Lemma all_chars_split_from p sep k s :
  all_chars p s = true ->
  Forall (fun x => all_chars p x = true) (split_from sep k s).
Proof.
  revert k. induction s as [|a s IH]; intros k H; cbn [split_from].
  - constructor; [reflexivity|constructor].
  - simpl in H. apply andb_true_iff in H as [Ha Hs].
    destruct k; [|now apply IH].
    destruct (prefix sep (String a s)).
    + constructor; [reflexivity|now apply IH].
    + apply all_chars_cons_head; [assumption|now apply IH].
Qed.

Lemma all_chars_split p sep s :
  all_chars p s = true ->
  Forall (fun x => all_chars p x = true) (split sep s).
Proof. apply all_chars_split_from. Qed.

Lemma all_chars_join p sep l :
  all_chars p sep = true ->
  Forall (fun x => all_chars p x = true) l ->
  all_chars p (join sep l) = true.
Proof.
  intros Hsep. induction l as [|x l IH]; intros H; [reflexivity|].
  inversion H; subst. destruct l as [|y l]; [assumption|].
  change (join sep (x :: y :: l)) with (x ++ sep ++ join sep (y :: l)).
  rewrite !all_chars_app. rewrite IH by assumption.
  now rewrite H2, Hsep.
Qed.

(** *** [strip] *)

Lemma all_chars_lstrip p s :
  all_chars p s = true -> all_chars p (lstrip s) = true.
Proof.
  induction s as [|a s IH]; simpl; [reflexivity|].
  intros H. destruct (isspace a); [|exact H].
  apply andb_true_iff in H as [_ Hs]. now apply IH.
Qed.

Lemma all_chars_rstrip p s :
  all_chars p s = true -> all_chars p (rstrip s) = true.
Proof.
  induction s as [|a s IH]; simpl; [reflexivity|].
  intros H. apply andb_true_iff in H as [Ha Hs].
  specialize (IH Hs). destruct (rstrip s).
  - destruct (isspace a); simpl; [reflexivity|now rewrite Ha].
  - simpl. rewrite Ha. exact IH.
Qed.

Lemma all_chars_strip p s :
  all_chars p s = true -> all_chars p (strip s) = true.
Proof. intros H. now apply all_chars_rstrip, all_chars_lstrip. Qed.

Lemma lstrip_id s :
  all_chars (fun c => negb (isspace c)) s = true -> lstrip s = s.
Proof.
  destruct s as [|a s]; simpl; [reflexivity|].
  intros H. apply andb_true_iff in H as [Ha _].
  now destruct (isspace a).
Qed.

Lemma rstrip_id s :
  all_chars (fun c => negb (isspace c)) s = true -> rstrip s = s.
Proof.
  induction s as [|a s IH]; simpl; [reflexivity|].
  intros H. apply andb_true_iff in H as [Ha Hs].
  rewrite (IH Hs). destruct s; [|reflexivity].
  now destruct (isspace a).
Qed.

Lemma strip_id s :
  all_chars (fun c => negb (isspace c)) s = true -> strip s = s.
Proof. intros H. unfold strip. now rewrite lstrip_id, rstrip_id. Qed.

(** *** Dictionaries *)

Lemma dict_get_In {V} k (v : V) d : dict_get k d = Some v -> In (k, v) d.
Proof.
  induction d as [|[k' v'] d IH]; simpl; [discriminate|].
  destruct (String.eqb_spec k' k) as [->|_].
  - intros [= ->]. now left.
  - intros H. right. now apply IH.
Qed.

Lemma dict_get_all {V} (p : string * V -> bool) d k v :
  forallb p d = true -> dict_get k d = Some v -> p (k, v) = true.
Proof.
  intros Hall Hget. apply dict_get_In in Hget.
  rewrite forallb_forall in Hall. now apply Hall.
Qed.

End StrFacts.

Import StrFacts.

(** * The compiler, line by line *)

Module CompileFacts.

Lemma compile_line_acc index line output errors :
  compile_line index line (output, errors) =
  (output ++ emitted index line, (errors ++ reported index line)%list).
Proof.
  unfold emitted, reported, compile_line.
  destruct (tokenize line) as [|command args].
  - cbn. now rewrite app_nil_r.
  - destruct (dict_get command REVERSE_SCRIPT_COMMANDS) as [opcode|];
      [|cbn; now rewrite sapp_nil_r].
    destruct (arity_error (command :: args) command);
      [cbn; now rewrite sapp_nil_r|].
    cbn [fst snd]. rewrite app_nil_r. f_equal.
    destruct (0 <? index)%nat, (1 <? length (command :: args))%nat;
      cbn [append]; now rewrite ?sapp_assoc.
Qed.

Lemma compile_loop_acc lines output errors :
  compile_loop lines (output, errors) =
  (output ++ flat (map (fun il => emitted (fst il) (snd il)) lines),
   (errors ++ flat_map (fun il => reported (fst il) (snd il)) lines)%list).
Proof.
  revert output errors.
  induction lines as [|[i l] lines IH]; intros output errors.
  - cbn. now rewrite sapp_nil_r, app_nil_r.
  - unfold compile_loop in *. cbn [fold_left fst snd].
    rewrite compile_line_acc, IH. cbn [map flat flat_map fst snd].
    now rewrite sapp_assoc, <- app_assoc.
Qed.

Lemma compile_unfold script :
  compile script =
  let lines := enumerate (split nl script) in
  match flat_map (fun il => reported (fst il) (snd il)) lines with
  | [] => Compiled (flat (map (fun il => emitted (fst il) (snd il)) lines) ++ nl)
  | errors => Failed errors
  end.
Proof.
  unfold compile. rewrite compile_loop_acc. cbn [app append].
  now destruct (flat_map _ _).
Qed.

Lemma reported_message index line :
  reported index line =
  match line_message line with
  | Some message => [makeError index message]
  | None => []
  end.
Proof.
  unfold reported, line_message, compile_line, dict_in.
  destruct (tokenize line) as [|command args]; [reflexivity|].
  destruct (dict_get command REVERSE_SCRIPT_COMMANDS); [|reflexivity].
  now destruct (arity_error (command :: args) command).
Qed.

Lemma collected_errors_reported lines :
  collected_errors lines =
  flat_map (fun il => reported (fst il) (snd il)) (enumerate lines).
Proof.
  unfold collected_errors. apply flat_map_ext. intros [i l].
  now rewrite reported_message.
Qed.

Lemma emitted_good index line command args opcode :
  tokenize line = command :: args ->
  dict_get command REVERSE_SCRIPT_COMMANDS = Some opcode ->
  arity_error (command :: args) command = None ->
  emitted index line =
    (if (0 <? index)%nat then nl else "") ++ packed_line opcode args
  /\ reported index line = [].
Proof.
  intros Ht Ho Ha. unfold emitted, reported, compile_line, packed_line.
  rewrite Ht, Ho, Ha. cbn [fst snd tl]. split; [|reflexivity].
  destruct args as [|a args].
  - change (1 <? length [command])%nat with false.
    destruct (0 <? index)%nat; cbn; now rewrite ?sapp_nil_r.
  - change (1 <? length (command :: a :: args))%nat with true.
    generalize (join "." (a :: args)). intros j.
    destruct (0 <? index)%nat; cbn [append]; now rewrite ?sapp_assoc.
Qed.

Lemma emitted_blank index line :
  tokenize line = [] -> emitted index line = "" /\ reported index line = [].
Proof.
  intros Ht. unfold emitted, reported, compile_line. now rewrite Ht.
Qed.

(** Every line either reports nothing or reports one error and emits
    nothing. *)
Lemma reported_cases index line :
  reported index line = [] \/
  exists message, reported index line = [makeError index message]
                  /\ emitted index line = "".
Proof.
  unfold emitted, reported, compile_line.
  destruct (tokenize line) as [|command args]; [now left|].
  destruct (dict_get command REVERSE_SCRIPT_COMMANDS) as [opcode|];
    [|right; eexists; split; reflexivity].
  destruct (arity_error (command :: args) command);
    [right; eexists; split; reflexivity|now left].
Qed.

Lemma opcodes_ok command opcode :
  dict_get command REVERSE_SCRIPT_COMMANDS = Some opcode ->
  opcode_ok opcode = true.
Proof.
  intros H.
  apply (dict_get_all (fun kv => opcode_ok (snd kv)) REVERSE_SCRIPT_COMMANDS
           command opcode); [vm_compute; reflexivity|exact H].
Qed.

Lemma enumerate_cons {A} (x : A) l :
  enumerate (x :: l) = (0, x) :: combine (seq 1 (length l)) l.
Proof. reflexivity. Qed.

Lemma combine_seq_positive {A} (l : list A) start :
  0 < start -> Forall (fun il => 0 < fst il) (combine (seq start (length l)) l).
Proof.
  revert start. induction l as [|x l IH]; intros start H; cbn; constructor.
  - exact H.
  - apply IH. lia.
Qed.

Lemma silent_cases index line :
  reported index line = [] ->
  (tokenize line = [] /\ emitted index line = "") \/
  (exists command args opcode,
      tokenize line = command :: args
      /\ dict_get command REVERSE_SCRIPT_COMMANDS = Some opcode
      /\ arity_error (command :: args) command = None
      /\ emitted index line =
           (if (0 <? index)%nat then nl else "") ++ packed_line opcode args).
Proof.
  intros H.
  destruct (tokenize line) as [|command args] eqn:Ht.
  - left. split; [reflexivity|]. exact (proj1 (emitted_blank index line Ht)).
  - right. exists command, args.
    unfold reported, compile_line in H. rewrite Ht in H.
    destruct (dict_get command REVERSE_SCRIPT_COMMANDS) as [opcode|] eqn:Ho;
      [|discriminate].
    destruct (arity_error (command :: args) command) eqn:Ha; [discriminate|].
    exists opcode. repeat split; try reflexivity.
    exact (proj1 (emitted_good index line command args opcode Ht Ho Ha)).
Qed.

Lemma later_lines_start_with_newline lines :
  Forall (fun il => 0 < fst il) lines ->
  flat_map (fun il => reported (fst il) (snd il)) lines = [] ->
  exists rest,
    flat (map (fun il => emitted (fst il) (snd il)) lines) ++ nl = nl ++ rest.
Proof.
  induction lines as [|[i l] lines IH]; intros Hpos Herr.
  - now exists "".
  - inversion Hpos as [|? ? Hi Hrest]; subst. cbn [fst] in Hi.
    cbn [flat_map fst snd] in Herr. apply app_eq_nil in Herr as [Hl Hls].
    cbn [map flat fst snd].
    destruct (silent_cases i l Hl) as [[_ ->]|(c & a & o & _ & _ & _ & ->)].
    + now apply IH.
    + destruct (Nat.ltb_spec 0 i) as [_|]; [|lia].
      rewrite !sapp_assoc. cbn [nl append]. eauto.
Qed.

Lemma in_combine_seq {A} (l : list A) start i x :
  In (i, x) (combine (seq start (length l)) l)
  <-> start <= i /\ nth_error l (i - start) = Some x.
Proof.
  revert start. induction l as [|y l IH]; intros start; cbn [length seq combine].
  - split; [contradiction|]. intros [_ H]. now destruct (i - start).
  - cbn [In]. rewrite IH. split.
    + intros [[= <- <-]|[Hle Hn]].
      * split; [lia|]. now rewrite Nat.sub_diag.
      * split; [lia|]. replace (i - start) with (S (i - S start)) by lia.
        exact Hn.
    + intros [Hle Hn]. destruct (i - start) as [|k] eqn:E.
      * left. injection Hn as <-. f_equal. lia.
      * right. split; [lia|]. replace (i - S start) with k by lia. exact Hn.
Qed.

Lemma in_enumerate {A} (l : list A) i x :
  In (i, x) (enumerate l) <-> nth_error l i = Some x.
Proof.
  unfold enumerate. rewrite in_combine_seq, Nat.sub_0_r.
  split; [now intros [_ H]|]. intros H. split; [lia|exact H].
Qed.

Lemma nth_error_combine_seq {A} (l : list A) start i x :
  nth_error l i = Some x ->
  nth_error (combine (seq start (length l)) l) i = Some (start + i, x).
Proof.
  revert start i. induction l as [|y l IH]; intros start [|i] H;
    try discriminate H.
  - injection H as <-. cbn. now rewrite Nat.add_0_r.
  - cbn [length seq combine nth_error]. rewrite (IH (S start) i H).
    f_equal. f_equal. lia.
Qed.

Lemma nth_error_enumerate {A} (l : list A) i x :
  nth_error l i = Some x -> nth_error (enumerate l) i = Some (i, x).
Proof. intros H. exact (nth_error_combine_seq l 0 i x H). Qed.

Lemma in_collected_errors lines e :
  In e (collected_errors lines)
  <-> exists i line message,
      nth_error lines i = Some line
      /\ line_message line = Some message
      /\ e = "Line " ++ str_of_nat (i + 1) ++ ": " ++ message.
Proof.
  unfold collected_errors. rewrite in_flat_map. split.
  - intros ([i line] & Hin & He). apply in_enumerate in Hin.
    cbn [fst snd] in He.
    destruct (line_message line) as [message|] eqn:Hm; [|contradiction].
    destruct He as [<-|[]]. now exists i, line, message.
  - intros (i & line & message & Hn & Hm & ->).
    exists (i, line). split; [now apply in_enumerate|].
    cbn [fst snd]. rewrite Hm. now left.
Qed.

Lemma split_no_comment s : no_comment s = true -> split "//" s = [s].
Proof.
  unfold split. induction s as [|c s IH]; [reflexivity|].
  cbn [no_comment split_from]. intros H.
  apply andb_true_iff in H as [Hp Hs].
  destruct (prefix "//" (String c s)); [discriminate|].
  now rewrite (IH Hs).
Qed.

(** A line written as a command and its arguments with single spaces
    between them reads back as those tokens. *)
Lemma tokenize_written tokens :
  tokens <> [] ->
  Forall (fun t => t <> "" /\ count_char " " t = 0) tokens ->
  no_comment (join " " tokens) = true ->
  tokenize (join " " tokens) = tokens.
Proof.
  intros Hne Hall Hc. unfold tokenize, splitByWhitespace.
  rewrite (split_no_comment _ Hc). cbn [hd].
  rewrite split_join; [|exact Hne|].
  - induction Hall as [|t l [Ht _] _ IH]; [reflexivity|].
    cbn [filter]. destruct (String.eqb_spec t ""); [contradiction|].
    cbn [negb]. f_equal.
    destruct l as [|t' l]; [reflexivity|]. apply IH; [discriminate|].
    change (join " " (t :: t' :: l)) with (t ++ " " ++ join " " (t' :: l)) in Hc.
    clear -Hc. induction t as [|c t IHt].
    + cbn [append no_comment] in Hc. now apply andb_true_iff in Hc as [_ Hc].
    + cbn [append no_comment] in Hc. apply andb_true_iff in Hc as [_ Hc].
      now apply IHt.
  - eapply Forall_impl; [|exact Hall]. now intros t [_ Ht].
Qed.

End CompileFacts.

Import CompileFacts.

(** * The decompiler, line by line *)

Module DecompileFacts.

Lemma getitem_tokens_0 line :
  getitem (tokens_of line) 0 = Return (hd "" (tokens_of line)).
Proof.
  unfold tokens_of. destruct (split "." (strip line)) eqn:E; [|reflexivity].
  now apply split_not_nil in E.
Qed.

(** A line whose first token is no opcode is copied. *)
Lemma decompile_line_raw sql line result indentation :
  mnemonic_of line = None ->
  decompile_line sql line (result, indentation)
  = Return (result ++ line ++ nl, indentation).
Proof.
  unfold mnemonic_of, decompile_line. fold (tokens_of line).
  rewrite getitem_tokens_0. cbn [bind]. now intros ->.
Qed.

(** A line whose first token is an opcode. *)
Lemma decompile_line_command sql line result indentation command :
  mnemonic_of line = Some command ->
  decompile_line sql line (result, indentation)
  = (comment <- comment_of sql command (tl (tokens_of line)) ;;
     let depth := if (command =? "endIf")%string
                  then Z.max (indentation - 4) 0 else indentation in
     Return (result
             ++ (if (command =? "else")%string then ""
                 else spaces (Z.to_nat depth))
             ++ command ++ printed_args (tokens_of line) ++ comment ++ nl,
             if startswith command "if" then (depth + 4)%Z else depth)).
Proof.
  unfold mnemonic_of, decompile_line, comment_of, printed_args.
  fold (tokens_of line). rewrite getitem_tokens_0. cbn [bind]. intros ->.
  destruct (dict_in command script_command_parameters).
  - destruct (makeDecompiledParameterComment _ _ _) as [comment|e];
      [|reflexivity].
    cbn [bind]. cbv zeta.
    destruct (command =? "else")%string, (1 <? length (tokens_of line))%nat;
      cbn [negb append]; now rewrite ?sapp_assoc, ?sapp_nil_r.
  - cbn [bind]. cbv zeta.
    destruct (command =? "else")%string, (1 <? length (tokens_of line))%nat;
      cbn [negb append]; now rewrite ?sapp_assoc, ?sapp_nil_r.
Qed.

End DecompileFacts.

Import DecompileFacts.

(** * The annotation engine *)

Module CommentFacts.

Lemma count_all_chars s :
  count_char NL s = 0 <-> all_chars not_newline s = true.
Proof.
  unfold not_newline. induction s as [|a s IH]; cbn [count_char all_chars].
  - tauto.
  - destruct (a =? NL)%char; cbn [negb andb]; [split; discriminate|].
    exact IH.
Qed.

Lemma plus_zero a b : a = 0 -> b = 0 -> a + b = 0.
Proof. lia. Qed.

Lemma getitem_Forall {A} (P : A -> Prop) l n x :
  Forall P l -> getitem l n = Return x -> P x.
Proof.
  unfold getitem. intros H. destruct (nth_error l n) eqn:E; [|discriminate].
  intros [= <-]. rewrite Forall_forall in H. apply H.
  eapply nth_error_In; eauto.
Qed.

Lemma is_any_In command names : is_any command names = true -> In command names.
Proof.
  unfold is_any. rewrite existsb_exists. intros (n & Hin & E).
  apply String.eqb_eq in E. now subst.
Qed.

Section Resolvers.

Variable sql : sql_connection.
Hypothesis sql_ok : resolver_newline_free sql.

Lemma fetchStringOrNull_newline_free query params :
  count_char NL (fetchStringOrNull sql query params) = 0.
Proof.
  unfold fetchStringOrNull, fetchString.
  destruct (fetchone sql query params) eqn:E; [|reflexivity].
  eapply sql_ok; eauto.
Qed.

Lemma resolveLabel_newline_free uid : count_char NL (resolveLabel sql uid) = 0.
Proof. apply fetchStringOrNull_newline_free. Qed.

Lemma resolveDialog_newline_free uid :
  count_char NL (resolveDialog sql uid) = 0.
Proof. apply fetchStringOrNull_newline_free. Qed.

Lemma resolveCardIdName_newline_free query entity_id :
  count_char NL (resolveCardIdName sql query entity_id) = 0.
Proof.
  unfold resolveCardIdName. generalize (fetchall sql query). intros rows.
  induction rows as [|[name_id card_id] rows IH]; cbn [firstCardLabel];
    [reflexivity|].
  destruct (_ =? _)%string; [apply resolveLabel_newline_free|exact IH].
Qed.

Lemma resolveFairyName_newline_free fairy_id :
  count_char NL (resolveFairyName sql fairy_id) = 0.
Proof. apply resolveCardIdName_newline_free. Qed.

Lemma resolveCardDescription_newline_free card_type card_id :
  count_char NL (resolveCardDescription sql card_type card_id) = 0.
Proof.
  unfold resolveCardDescription.
  repeat match goal with
         | |- context [if ?b then _ else _] => destruct b
         end;
    rewrite ?count_char_app;
    try apply plus_zero; try reflexivity;
    first [apply resolveCardIdName_newline_free
          |apply resolveFairyName_newline_free].
Qed.

End Resolvers.

Lemma indexListByMaybeInt_newline_free string_list argument s :
  Forall (fun x => count_char NL x = 0) string_list ->
  indexListByMaybeInt string_list argument = Return s ->
  count_char NL s = 0.
Proof.
  intros Hall. unfold indexListByMaybeInt.
  destruct (int argument) as [index|]; [|now intros [= <-]].
  destruct (_ && _)%bool; [|now intros [= <-]].
  unfold getitemZ.
  destruct (0 <=? index)%Z;
    [|destruct (- Z.of_nat (length string_list) <=? index)%Z];
    try discriminate; intros G;
    exact (getitem_Forall (fun x => count_char NL x = 0) _ _ s Hall G).
Qed.

Lemma indexListByMaybeInt_returns string_list argument :
  exists s, indexListByMaybeInt string_list argument = Return s.
Proof.
  unfold indexListByMaybeInt.
  destruct (int argument) as [index|]; [|eauto].
  destruct ((0 <=? index)%Z && (index <? Z.of_nat (length string_list))%Z) eqn:E;
    [|eauto].
  apply andb_true_iff in E as [Hlo Hhi].
  apply Z.leb_le in Hlo. apply Z.ltb_lt in Hhi.
  unfold getitemZ, getitem. destruct (Z.leb_spec 0 index); [|lia].
  destruct (nth_error string_list (Z.to_nat index)) eqn:N; [eauto|].
  apply nth_error_None in N. lia.
Qed.

Lemma indexListByMaybeInt_unresolvable string_list argument :
  unresolvable string_list argument ->
  indexListByMaybeInt string_list argument = Return "NULL".
Proof.
  unfold unresolvable, indexListByMaybeInt.
  destruct (int argument) as [index|]; [|reflexivity].
  intros H.
  destruct (Z.leb_spec 0 index), (Z.ltb_spec index (Z.of_nat (length string_list)));
    cbn [andb]; try reflexivity; lia.
Qed.

Lemma table_newline_free (l : list string) :
  forallb (all_chars not_newline) l = true ->
  Forall (fun x => count_char NL x = 0) l.
Proof.
  intros H. rewrite forallb_forall in H. apply Forall_forall.
  intros x Hx. apply count_all_chars. now apply H.
Qed.

Lemma element_classes_newline_free :
  Forall (fun x => count_char NL x = 0) ELEMENT_CLASSES.
Proof. apply table_newline_free. reflexivity. Qed.

Lemma animations_newline_free :
  Forall (fun x => count_char NL x = 0) AVAILABLE_ANIMATIONS.
Proof. apply table_newline_free. reflexivity. Qed.

Lemma parameter_names_newline_free command parameters :
  dict_get command script_command_parameters = Some parameters ->
  count_char NL (join ", " parameters) = 0.
Proof.
  intros H. apply count_all_chars.
  exact (dict_get_all
           (fun kv => all_chars not_newline (join ", " (snd kv)))
           script_command_parameters command parameters eq_refl H).
Qed.

Lemma mnemonic_newline_free opcode command :
  dict_get opcode SCRIPT_COMMANDS = Some command ->
  count_char NL command = 0.
Proof.
  intros H. apply count_all_chars.
  exact (dict_get_all (fun kv => all_chars not_newline (snd kv))
           SCRIPT_COMMANDS opcode command eq_refl H).
Qed.

Lemma dict_value_newline_free (d : dict string) k v :
  forallb (fun kv => all_chars not_newline (snd kv)) d = true ->
  dict_get k d = Some v -> count_char NL v = 0.
Proof.
  intros Hd H. apply count_all_chars.
  exact (dict_get_all (fun kv => all_chars not_newline (snd kv)) d k v Hd H).
Qed.

End CommentFacts.

Import CommentFacts.

Module CommentShape.

Create HintDb newline.

#[export] Hint Resolve resolveLabel_newline_free resolveDialog_newline_free
  resolveCardIdName_newline_free resolveFairyName_newline_free
  resolveCardDescription_newline_free : newline.

Ltac newline_free :=
  repeat match goal with
         | |- count_char NL (_ ++ _) = 0 =>
             rewrite count_char_app; apply plus_zero
         | |- count_char NL (String _ _) = 0 => cbn [count_char]
         | |- _ + _ = 0 => apply plus_zero
         | |- (if (_ =? NL)%char then 1 else 0) = 0 => reflexivity
         | |- count_char NL "" = 0 => reflexivity
         | |- count_char NL (if ?b then _ else _) = 0 => destruct b
         end;
  eauto with newline.

(** One step through the branches of an annotation function whose result
    is named by the hypothesis of the goal. *)
Ltac comment_step Hargs :=
  match goal with
  | |- (if ?b then _ else _) = Return _ -> _ => destruct b
  | |- bind (getitem ?l ?n) _ = Return _ -> _ =>
      let G := fresh "G" in
      destruct (getitem l n) eqn:G; cbn [bind];
      [apply (getitem_Forall _ _ _ _ Hargs) in G|discriminate]
  | |- bind (indexListByMaybeInt ?l ?a) _ = Return _ -> _ =>
      let I := fresh "I" in
      destruct (indexListByMaybeInt l a) eqn:I; cbn [bind]; [|discriminate]
  | |- match dict_get ?k ?d with _ => _ end = Return _ -> _ =>
      let D := fresh "D" in destruct (dict_get k d) eqn:D
  | |- Return _ = Return _ -> _ => intros [= <-]
  end.

Lemma specials_newline_free arguments comment :
  Forall (fun x => count_char NL x = 0) arguments ->
  makeDecompiledSpecialsComment arguments = Return comment ->
  count_char NL comment = 0.
Proof.
  intros Hargs. unfold makeDecompiledSpecialsComment.
  repeat comment_step Hargs; newline_free.
  eapply indexListByMaybeInt_newline_free;
    [apply element_classes_newline_free|eassumption].
Qed.

Lemma comment_newline_free sql command arguments comment :
  resolver_newline_free sql ->
  Forall (fun x => count_char NL x = 0) arguments ->
  makeDecompiledParameterComment command arguments sql = Return comment ->
  count_char NL comment = 0.
Proof.
  intros Hsql Hargs. unfold makeDecompiledParameterComment, dict_getitem.
  destruct (dict_get command script_command_parameters) as [names|] eqn:Hn;
    cbn [bind]; [|discriminate].
  apply parameter_names_newline_free in Hn.
  generalize dependent (join ", " names). intros header Hn.
  repeat comment_step Hargs.
  all: try (newline_free; fail).
  - newline_free. now apply (dict_value_newline_free subcommand_descriptions a).
  - destruct (makeDecompiledSpecialsComment arguments) eqn:S; cbn [bind];
      [|discriminate].
    intros [= <-]. apply specials_newline_free in S; [|assumption].
    newline_free.
  - newline_free. now apply (dict_value_newline_free modes a).
  - newline_free. eapply indexListByMaybeInt_newline_free;
      [apply animations_newline_free|eassumption].
  - newline_free. unfold makeActorEffectComment.
    repeat match goal with |- context [if ?b then _ else _] => destruct b end;
      reflexivity.
Qed.

End CommentShape.

Import CommentShape.

Module CommentReturns.

Ltac finish_comment :=
  repeat match goal with
         | |- context [if ?b then _ else _] => destruct b
         | |- context [match dict_get ?k ?d with _ => _ end] =>
             destruct (dict_get k d)
         | |- context [indexListByMaybeInt ?l ?a] =>
             let s := fresh "s" in
             destruct (indexListByMaybeInt_returns l a) as [s ->]
         | _ => progress cbn [bind]
         end;
  first [eexists; reflexivity|exists ""; now rewrite sapp_nil_r].

(** A command that is given at least as many arguments as it has
    parameters. *)
Ltac branch_comment Hn Hlen arguments :=
  vm_compute in Hn; injection Hn as <-;
  cbn [length] in Hlen;
  destruct arguments as [|? [|? [|? ?]]]; cbn [length] in Hlen; try lia;
  unfold makeDecompiledSpecialsComment;
  cbn [getitem nth_error bind];
  finish_comment.

Lemma comment_returns sql command arguments parameters :
  dict_get command script_command_parameters = Some parameters ->
  length parameters <= length arguments ->
  exists rest,
    makeDecompiledParameterComment command arguments sql
    = Return ((" // " ++ join ", " parameters) ++ rest).
Proof.
  intros Hn Hlen. unfold makeDecompiledParameterComment, dict_getitem.
  rewrite Hn. cbn [bind]. cbv zeta.
  repeat match goal with
         | |- exists _, (if (command =? ?lit)%string then _ else _) = _ =>
             destruct (String.eqb_spec command lit) as [->|_];
             [branch_comment Hn Hlen arguments|]
         | |- exists _, (if is_any command ?l then _ else _) = _ =>
             let E := fresh "E" in
             destruct (is_any command l) eqn:E;
             [apply is_any_In in E; cbn [In] in E;
              repeat match type of E with
                     | _ \/ _ => destruct E as [E|E]
                     end;
              try contradiction; subst command;
              branch_comment Hn Hlen arguments
             |clear E]
         end.
  exists "". now rewrite sapp_nil_r.
Qed.

End CommentReturns.

Import CommentReturns.

(** * Lines in, lines out *)

Module LineFacts.

Lemma split_pieces_free c s :
  Forall (fun x => count_char c x = 0) (split (String c "") s).
Proof.
  induction s as [|a s IH]; [repeat constructor|].
  rewrite split_cons. destruct (Ascii.eqb_spec a c) as [->|N].
  - now constructor.
  - pose proof (split_not_nil (String c "") s) as Hne.
    destruct (split (String c "") s) as [|h t]; [congruence|].
    inversion IH; subst. constructor; [|assumption].
    cbn [count_char]. destruct (Ascii.eqb_spec a c); [congruence|assumption].
Qed.

Lemma split_snoc c s :
  split (String c "") (s ++ String c "")
  = (split (String c "") s ++ [""])%list.
Proof.
  induction s as [|a s IH].
  - cbn [append]. now rewrite split_cons, Ascii.eqb_refl.
  - cbn [append]. rewrite !split_cons, IH.
    destruct (a =? c)%char; [reflexivity|].
    pose proof (split_not_nil (String c "") s) as Hne.
    now destruct (split (String c "") s).
Qed.

Lemma decompile_loop_app sql l1 l2 st :
  decompile_loop sql (l1 ++ l2) st
  = (st' <- decompile_loop sql l1 st ;; decompile_loop sql l2 st').
Proof.
  revert st. induction l1 as [|l l1 IH]; intros st; [reflexivity|].
  cbn [app decompile_loop].
  destruct (decompile_line sql l st) as [st'|e]; [|reflexivity].
  cbn [bind]. apply IH.
Qed.

Lemma tokens_newline_free line :
  count_char NL line = 0 ->
  Forall (fun x => count_char NL x = 0) (tokens_of line).
Proof.
  intros H. apply count_all_chars in H.
  apply all_chars_strip in H.
  apply (all_chars_split not_newline ".") in H.
  unfold tokens_of. eapply Forall_impl; [|exact H].
  intros x Hx. now apply count_all_chars.
Qed.

Lemma join_newline_free sep l :
  count_char NL sep = 0 ->
  Forall (fun x => count_char NL x = 0) l ->
  count_char NL (join sep l) = 0.
Proof.
  intros Hsep H. apply count_all_chars. apply all_chars_join.
  - now apply count_all_chars.
  - eapply Forall_impl; [|exact H]. intros x Hx. now apply count_all_chars.
Qed.

Lemma printed_args_newline_free tokens :
  Forall (fun x => count_char NL x = 0) tokens ->
  count_char NL (printed_args tokens) = 0.
Proof.
  intros H. unfold printed_args.
  destruct (1 <? length tokens)%nat; [|reflexivity].
  rewrite count_char_app. apply plus_zero; [reflexivity|].
  apply join_newline_free; [reflexivity|].
  destruct tokens; [constructor|]. now inversion H.
Qed.

Lemma comment_of_newline_free sql command arguments comment :
  resolver_newline_free sql ->
  Forall (fun x => count_char NL x = 0) arguments ->
  comment_of sql command arguments = Return comment ->
  count_char NL comment = 0.
Proof.
  intros Hsql Hargs. unfold comment_of.
  destruct (dict_in command script_command_parameters).
  - now apply comment_newline_free.
  - now intros [= <-].
Qed.

(** One turn of the loop adds exactly one newline. *)
Lemma decompile_line_count sql line result indentation out indentation' :
  resolver_newline_free sql ->
  count_char NL line = 0 ->
  decompile_line sql line (result, indentation) = Return (out, indentation') ->
  count_char NL out = count_char NL result + 1.
Proof.
  intros Hsql Hline.
  destruct (mnemonic_of line) as [command|] eqn:Hm.
  - rewrite (decompile_line_command sql line result indentation _ Hm).
    destruct (comment_of _ _ _) as [comment|e] eqn:Hc; cbn [bind];
      [|discriminate].
    intros [= <- _].
    pose proof (tokens_newline_free line Hline) as Htok.
    apply comment_of_newline_free in Hc; [|assumption|].
    2:{ destruct (tokens_of line); [constructor|]. now inversion Htok. }
    rewrite !count_char_app, Hc.
    rewrite (printed_args_newline_free _ Htok).
    rewrite (mnemonic_newline_free _ _ Hm).
    assert (Hind : forall n, count_char NL
              (if (command =? "else")%string then "" else spaces n) = 0).
    { intros n. destruct (command =? "else")%string; [reflexivity|].
      apply count_spaces. discriminate. }
    rewrite Hind. reflexivity.
  - rewrite (decompile_line_raw sql line result indentation Hm).
    intros [= <- _]. rewrite !count_char_app, Hline. reflexivity.
Qed.

Lemma decompile_loop_count sql lines result indentation out indentation' :
  resolver_newline_free sql ->
  Forall (fun x => count_char NL x = 0) lines ->
  decompile_loop sql lines (result, indentation) = Return (out, indentation') ->
  count_char NL out = count_char NL result + length lines.
Proof.
  intros Hsql. revert result indentation.
  induction lines as [|l lines IH]; intros result indentation Hall.
  - cbn. intros [= <- _]. lia.
  - inversion Hall; subst. cbn [decompile_loop length].
    destruct (decompile_line sql l (result, indentation)) as [[r i]|e] eqn:E;
      cbn [bind]; [|discriminate].
    intros Hrest. apply IH in Hrest; [|assumption].
    apply decompile_line_count in E; [|assumption|assumption]. lia.
Qed.

Lemma decompile_line_returns sql line st :
  enough_arguments line -> exists st', decompile_line sql line st = Return st'.
Proof.
  destruct st as [result indentation]. unfold enough_arguments.
  destruct (mnemonic_of line) as [command|] eqn:Hm.
  - rewrite (decompile_line_command sql line result indentation _ Hm).
    unfold comment_of, dict_in.
    destruct (dict_get command script_command_parameters) as [ps|] eqn:Hp.
    + intros Hlen.
      destruct (comment_returns sql command _ ps Hp Hlen) as [rest ->].
      cbn [bind]. eauto.
    + cbn [bind]. eauto.
  - rewrite (decompile_line_raw sql line result indentation Hm). eauto.
Qed.

Lemma decompile_loop_returns sql lines st :
  Forall enough_arguments lines ->
  exists st', decompile_loop sql lines st = Return st'.
Proof.
  revert st. induction lines as [|l lines IH]; intros st Hall; [cbn; eauto|].
  inversion Hall; subst. cbn [decompile_loop].
  destruct (decompile_line_returns sql l st) as [st' ->]; [assumption|].
  cbn [bind]. now apply IH.
Qed.

End LineFacts.

Import LineFacts.

(** * From source to packed text and back *)

Module RoundTrip.

Lemma arity_error_None command args :
  length args = arity command -> arity_error (command :: args) command = None.
Proof.
  unfold arity, arity_error. cbn [length].
  rewrite Nat.sub_succ, Nat.sub_0_r.
  destruct (dict_get command script_command_parameters) as [ps|].
  - intros ->. now rewrite Nat.eqb_refl.
  - now intros ->.
Qed.

(** The two tables are inverse to each other. *)
Lemma opcode_of_mnemonic command opcode :
  dict_get command REVERSE_SCRIPT_COMMANDS = Some opcode ->
  dict_get opcode SCRIPT_COMMANDS = Some command.
Proof.
  intros H.
  pose proof (dict_get_all
                (fun kv => match dict_get (snd kv) SCRIPT_COMMANDS with
                           | Some c => (c =? fst kv)%string
                           | None => false
                           end)
                REVERSE_SCRIPT_COMMANDS command opcode eq_refl H) as E.
  cbn [fst snd] in E.
  destruct (dict_get opcode SCRIPT_COMMANDS); [|discriminate].
  apply String.eqb_eq in E. now subst.
Qed.

Lemma opcode_dot_free command opcode :
  dict_get command REVERSE_SCRIPT_COMMANDS = Some opcode ->
  command <> "catchWizform" ->
  no_dot opcode = true.
Proof.
  intros H Hc.
  pose proof (dict_get_all
                (fun kv => (fst kv =? "catchWizform")%string || no_dot (snd kv))
                REVERSE_SCRIPT_COMMANDS command opcode eq_refl H) as E.
  cbn [fst snd] in E. apply orb_true_iff in E as [E|E]; [|exact E].
  apply String.eqb_eq in E. contradiction.
Qed.

Lemma opcode_no_whitespace command opcode :
  dict_get command REVERSE_SCRIPT_COMMANDS = Some opcode ->
  no_whitespace opcode = true.
Proof.
  intros H. apply opcodes_ok in H.
  destruct opcode as [|c [|]]; try discriminate.
  unfold no_whitespace. cbn [all_chars]. cbn in H. now rewrite H.
Qed.

Lemma packed_line_no_whitespace opcode args :
  no_whitespace opcode = true ->
  Forall (fun a => no_whitespace a = true) args ->
  no_whitespace (packed_line opcode args) = true.
Proof.
  intros Ho Ha. unfold packed_line, no_whitespace in *.
  rewrite all_chars_app, Ho. destruct args as [|a args]; [reflexivity|].
  rewrite all_chars_app. cbn [andb].
  change (all_chars (fun c => negb (isspace c)) ".") with true. cbn [andb].
  now apply all_chars_join.
Qed.

Lemma no_whitespace_newline_free s :
  no_whitespace s = true -> count_char NL s = 0.
Proof. now apply all_chars_count. Qed.

Lemma no_dot_count s : no_dot s = true -> count_char "." s = 0.
Proof. apply all_chars_count. reflexivity. Qed.

(** The tokens of a packed line are its opcode and its arguments. *)
Lemma tokens_of_packed_line opcode args :
  no_whitespace opcode = true ->
  Forall (fun a => no_whitespace a = true) args ->
  no_dot opcode = true ->
  Forall (fun a => no_dot a = true) args ->
  tokens_of (packed_line opcode args) = opcode :: args.
Proof.
  intros Hws Haws Hd Had. unfold tokens_of.
  rewrite strip_id by now apply packed_line_no_whitespace.
  unfold packed_line. destruct args as [|a args].
  - rewrite sapp_nil_r. apply split_free. now apply no_dot_count.
  - cbn [append]. rewrite split_app by now apply no_dot_count.
    f_equal. apply split_join; [discriminate|].
    eapply Forall_impl; [|exact Had]. intros x. apply no_dot_count.
Qed.

Lemma join_cons sep x l :
  join sep (x :: l) = x ++ flat (map (fun y => sep ++ y) l).
Proof.
  revert x. induction l as [|y l IH]; intros x.
  - cbn. now rewrite sapp_nil_r.
  - change (join sep (x :: y :: l)) with (x ++ sep ++ join sep (y :: l)).
    rewrite IH. cbn [map flat]. now rewrite sapp_assoc.
Qed.

Lemma printed_command command opcode args :
  command ++ printed_args (opcode :: args) = join " " (command :: args).
Proof.
  unfold printed_args. destruct args as [|a args].
  - cbn. now rewrite sapp_nil_r.
  - reflexivity.
Qed.

Section Lines.

Variable sql : sql_connection.

Lemma dot_free_emitted index line :
  dot_free_command_line line ->
  emitted index line = (if (0 <? index)%nat then nl else "") ++ pack line
  /\ reported index line = [].
Proof.
  intros (command & args & opcode & Ht & Ho & Hlen & _).
  unfold pack. rewrite Ht, Ho.
  apply (emitted_good index line command args opcode Ht Ho).
  now apply arity_error_None.
Qed.

Lemma later_lines_packed lines start :
  0 < start ->
  Forall dot_free_command_line lines ->
  flat (map (fun il => emitted (fst il) (snd il))
          (combine (seq start (length lines)) lines))
  = flat (map (fun l => nl ++ pack l) lines)
  /\ flat_map (fun il => reported (fst il) (snd il))
       (combine (seq start (length lines)) lines) = [].
Proof.
  revert start. induction lines as [|l lines IH]; intros start Hs Hall;
    [split; reflexivity|].
  inversion Hall as [|? ? Hl Hrest]; subst.
  cbn [length seq combine map flat flat_map fst snd].
  destruct (dot_free_emitted start l Hl) as [-> ->].
  destruct (IH (S start) (Nat.lt_0_succ start) Hrest) as [-> ->].
  destruct (Nat.ltb_spec 0 start); [|lia]. split; reflexivity.
Qed.

(** A script of well-formed lines compiles to its packed lines joined by
    newlines, with one newline at the end. *)
Lemma compile_dot_free script :
  Forall dot_free_command_line (split nl script) ->
  compile script = Compiled (join nl (map pack (split nl script)) ++ nl).
Proof.
  intros Hall. rewrite compile_unfold. cbv zeta.
  destruct (split nl script) as [|l0 rest] eqn:Hs;
    [now apply split_not_nil in Hs|].
  inversion Hall as [|? ? H0 Hrest]; subst.
  rewrite enumerate_cons. cbn [map flat flat_map fst snd].
  destruct (dot_free_emitted 0 l0 H0) as [-> ->].
  destruct (later_lines_packed rest 1 Nat.lt_0_1 Hrest) as [-> ->].
  cbn [app Nat.ltb Nat.leb append]. now rewrite join_cons, map_map.
Qed.

Lemma pack_no_whitespace line :
  dot_free_command_line line -> no_whitespace (pack line) = true.
Proof.
  intros (command & args & opcode & Ht & Ho & _ & Hws & _).
  unfold pack. rewrite Ht, Ho. apply packed_line_no_whitespace; [|exact Hws].
  now apply (opcode_no_whitespace command).
Qed.

(** The decompiler reads a packed line as the command it came from. *)
Lemma decompile_packed_line line result indentation :
  dot_free_command_line line ->
  exists depth comment indentation' command args,
    tokenize line = command :: args
    /\ comment_of sql command args = Return comment
    /\ decompile_line sql (pack line) (result, indentation)
       = Return (result ++ spaces depth ++ join " " (command :: args)
                        ++ comment ++ nl, indentation').
Proof.
  intros (command & args & opcode & Ht & Ho & Hlen & Hws & Hd & Hc).
  assert (Htok : tokens_of (pack line) = opcode :: args).
  { unfold pack. rewrite Ht, Ho. apply tokens_of_packed_line; try assumption.
    - now apply (opcode_no_whitespace command).
    - now apply (opcode_dot_free command). }
  assert (Hm : mnemonic_of (pack line) = Some command).
  { unfold mnemonic_of. rewrite Htok. cbn [hd].
    now apply opcode_of_mnemonic. }
  assert (Hcomment : exists comment,
             comment_of sql command args = Return comment).
  { unfold comment_of, dict_in.
    destruct (dict_get command script_command_parameters) as [ps|] eqn:Hp;
      [|eauto].
    destruct (comment_returns sql command args ps Hp) as [rest Hr]; [|eauto].
    unfold arity in Hlen. rewrite Hp in Hlen. lia. }
  destruct Hcomment as [comment Hcomment].
  rewrite (decompile_line_command sql (pack line) result indentation _ Hm).
  rewrite Htok. cbn [tl]. rewrite Hcomment. cbn [bind]. cbv zeta.
  set (depth := if (command =? "endIf")%string
                then Z.max (indentation - 4) 0 else indentation).
  exists (if (command =? "else")%string then 0 else Z.to_nat depth).
  exists comment. eexists. exists command, args.
  repeat split; try assumption.
  rewrite <- (printed_command command opcode args).
  destruct (command =? "else")%string; cbn [spaces];
    now rewrite ?sapp_assoc.
Qed.

Lemma decompile_packed_lines lines result indentation :
  Forall dot_free_command_line lines ->
  exists text indentation',
    decompile_loop sql (map pack lines ++ [""]) (result, indentation)
    = Return (result ++ text, indentation')
    /\ reproduces sql (map tokenize lines) text.
Proof.
  revert result indentation.
  induction lines as [|l lines IH]; intros result indentation Hall.
  - exists nl, indentation. split; [|constructor].
    cbn [map app decompile_loop].
    now rewrite (decompile_line_raw sql "" result indentation eq_refl).
  - inversion Hall as [|? ? Hl Hrest]; subst.
    destruct (decompile_packed_line l result indentation Hl)
      as (depth & comment & i' & command & args & Ht & Hc & Hline).
    cbn [map app decompile_loop]. rewrite Hline. cbn [bind].
    destruct (IH (result ++ spaces depth ++ join " " (command :: args)
                         ++ comment ++ nl) i' Hrest)
      as (text & i'' & -> & Hrep).
    exists (spaces depth ++ join " " (command :: args) ++ comment ++ nl
                   ++ text), i''.
    split; [now rewrite !sapp_assoc|].
    rewrite Ht. now constructor.
Qed.

End Lines.

End RoundTrip.

Import RoundTrip.

(** * Properties of the compiler *)

(** C5, as the code has it: [splitByWhitespace] splits at the space
    character only.  A tab between a command and its argument is kept inside
    one token, so the line is refused as an unknown command, where the same
    line written with a space compiles. *)
Lemma tab_is_not_a_separator :
  let tab := String "009" "" in
  splitByWhitespace ("goto" ++ tab ++ "1") = ["goto" ++ tab ++ "1"]
  /\ compile ("goto" ++ tab ++ "1")
     = Failed ["Line 1: Unknown command: goto" ++ tab ++ "1"]
  /\ splitByWhitespace "goto 1" = ["goto"; "1"]
  /\ compile "goto 1" = Compiled ("K.1" ++ nl).
Proof. vm_compute. repeat split. Qed.

(** C6: a line holding a known command and one argument too few or too
    many compiles to exactly one error, "Command <m> takes exactly <n>
    arguments: <names>" on line 1; a known command without a parameter list
    given any argument compiles to exactly one error, "Command takes no
    arguments: <m>". *)
Theorem arity_mismatch_is_one_error :
  forall line command args opcode,
    count_char NL line = 0 ->
    tokenize line = command :: args ->
    dict_get command REVERSE_SCRIPT_COMMANDS = Some opcode ->
    (forall parameters,
        dict_get command script_command_parameters = Some parameters ->
        length args + 1 = length parameters
        \/ length args = length parameters + 1 ->
        compile line =
        Failed ["Line 1: " ++ "Command " ++ command ++ " takes exactly "
                ++ str_of_nat (length parameters) ++ " arguments: "
                ++ join ", " parameters])
    /\ (dict_get command script_command_parameters = None ->
        args <> [] ->
        compile line =
        Failed ["Line 1: " ++ "Command takes no arguments: " ++ command]).
Proof.
  intros line command args opcode Hnl Ht Ho.
  assert (Hc : forall message,
             arity_error (command :: args) command = Some message ->
             compile line = Failed ["Line 1: " ++ message]).
  { intros message Ha. rewrite compile_unfold.
    unfold nl. rewrite (split_free NL line Hnl).
    cbn [enumerate length seq combine flat_map fst snd].
    unfold reported, compile_line. rewrite Ht, Ho, Ha. reflexivity. }
  split.
  - intros parameters Hp Hlen. apply Hc. unfold arity_error. rewrite Hp.
    cbn [length]. rewrite Nat.sub_succ, Nat.sub_0_r.
    destruct (Nat.eqb_spec (length args) (length parameters)); [lia|].
    reflexivity.
  - intros Hp Hargs. apply Hc. unfold arity_error. rewrite Hp.
    destruct args; [congruence|]. reflexivity.
Qed.

Lemma arity_mismatch_is_one_error_witness :
  compile "goto 1 2"
  = Failed ["Line 1: Command goto takes exactly 1 arguments: labelId"]
  /\ compile "say 7"
     = Failed ["Line 1: Command say takes exactly 2 arguments: dialogUid, silent"]
  /\ compile "exit 3" = Failed ["Line 1: Command takes no arguments: exit"].
Proof.
  split; [|split].
  - apply (proj1 (arity_mismatch_is_one_error "goto 1 2" "goto" ["1"; "2"] "K"
                    eq_refl eq_refl eq_refl) ["labelId"] eq_refl).
    right. reflexivity.
  - apply (proj1 (arity_mismatch_is_one_error "say 7" "say" ["7"] "!"
                    eq_refl eq_refl eq_refl) ["dialogUid"; "silent"] eq_refl).
    left. reflexivity.
  - apply (proj2 (arity_mismatch_is_one_error "exit 3" "exit" ["3"] "%"
                    eq_refl eq_refl eq_refl) eq_refl).
    discriminate.
Defined.

(** C7: [compile] visits every line.  The errors it returns are those of
    all erroneous lines in line order; when there is at least one, the result
    is the list of errors and no packed text.  An error is in the list
    exactly when it is the message of some line, prefixed with the 1-based
    number of that line.  In particular two lines that each start with an
    unknown token give exactly the two errors of lines 1 and 2. *)
Theorem compile_collects_every_error :
  (forall script,
      match collected_errors (split nl script) with
      | [] => exists code, compile script = Compiled code
      | errors => compile script = Failed errors
      end)
  /\ (forall script errors e,
         compile script = Failed errors ->
         In e errors
         <-> exists i line message,
             nth_error (split nl script) i = Some line
             /\ line_message line = Some message
             /\ e = "Line " ++ str_of_nat (i + 1) ++ ": " ++ message)
  /\ (forall l1 l2 c1 a1 c2 a2,
         count_char NL l1 = 0 -> count_char NL l2 = 0 ->
         tokenize l1 = c1 :: a1 -> tokenize l2 = c2 :: a2 ->
         dict_get c1 REVERSE_SCRIPT_COMMANDS = None ->
         dict_get c2 REVERSE_SCRIPT_COMMANDS = None ->
         compile (l1 ++ nl ++ l2)
         = Failed ["Line 1: Unknown command: " ++ c1;
                   "Line 2: Unknown command: " ++ c2]).
Proof.
  assert (Hall : forall script,
             match collected_errors (split nl script) with
             | [] => exists code, compile script = Compiled code
             | errors => compile script = Failed errors
             end).
  { intros script. rewrite compile_unfold, collected_errors_reported.
    cbv zeta. destruct (flat_map _ _); [eauto|reflexivity]. }
  split; [exact Hall|split].
  - intros script errors e Hc. rewrite <- in_collected_errors.
    specialize (Hall script).
    destruct (collected_errors (split nl script)).
    + destruct Hall as [code Hcode]. congruence.
    + rewrite Hall in Hc. injection Hc as <-. reflexivity.
  - intros l1 l2 c1 a1 c2 a2 H1 H2 Ht1 Ht2 Hc1 Hc2.
    rewrite compile_unfold. unfold nl. cbn [append].
    rewrite (split_app NL l1 l2 H1), (split_free NL l2 H2).
    cbn [enumerate length seq combine flat_map fst snd].
    unfold reported, compile_line. rewrite Ht1, Ht2, Hc1, Hc2. reflexivity.
Qed.

Lemma compile_collects_every_error_witness :
  compile ("foo" ++ nl ++ "bar 1")
  = Failed ["Line 1: Unknown command: foo"; "Line 2: Unknown command: bar"]
  /\ exists i line message,
      nth_error (split nl ("exit" ++ nl ++ "goto")) i = Some line
      /\ line_message line = Some message
      /\ "Line 2: Command goto takes exactly 1 arguments: labelId"
         = "Line " ++ str_of_nat (i + 1) ++ ": " ++ message.
Proof.
  destruct compile_collects_every_error as (_ & Hin & Htwo).
  split.
  - apply (Htwo "foo" "bar 1" "foo" [] "bar" ["1"]); reflexivity.
  - apply (Hin ("exit" ++ nl ++ "goto")
             ["Line 2: Command goto takes exactly 1 arguments: labelId"]
             "Line 2: Command goto takes exactly 1 arguments: labelId"
             eq_refl).
    left. reflexivity.
Defined.

(** C9: one line never adds more than one error.  A line whose first
    token is unknown adds the unknown-command error and nothing else; a line
    that fails the arity test adds that one error; in both cases the output
    is left as it was.  A failed compile holds no more errors than the script
    has lines.  The errors of [compile] are the contributions of the physical
    lines, one after the other: the contribution of a line holds at most one
    error and is fixed by the tokens of the line (nothing for a line without
    tokens or for a well-formed command, the unknown-command error alone for
    an unknown first token, the arity error alone for a known command with
    the wrong number of arguments); [compile] fails with their concatenation
    whenever it is not empty, and returns packed text only when it is. *)
Theorem at_most_one_error_per_line :
  forall index line output errors,
    (compile_line index line (output, errors) = (output ++ emitted index line, errors)
     \/ exists message,
         compile_line index line (output, errors)
         = (output, (errors ++ [makeError index message])%list))
    /\ (forall command args,
           tokenize line = command :: args ->
           dict_get command REVERSE_SCRIPT_COMMANDS = None ->
           compile_line index line (output, errors)
           = (output,
              (errors ++ [makeError index ("Unknown command: " ++ command)])%list))
    /\ (forall command args opcode message,
           tokenize line = command :: args ->
           dict_get command REVERSE_SCRIPT_COMMANDS = Some opcode ->
           arity_error (command :: args) command = Some message ->
           compile_line index line (output, errors)
           = (output, (errors ++ [makeError index message])%list))
    /\ (forall script errors,
           compile script = Failed errors ->
           length errors <= length (split nl script))
    /\ (forall script,
           exists contributions : list (list string),
             length contributions = length (split nl script)
             /\ (forall i physical_line,
                    nth_error (split nl script) i = Some physical_line ->
                    exists contribution,
                      nth_error contributions i = Some contribution
                      /\ length contribution <= 1
                      /\ contribution
                         = match tokenize physical_line with
                           | [] => []
                           | command :: args =>
                               match dict_get command REVERSE_SCRIPT_COMMANDS with
                               | None =>
                                   [makeError i ("Unknown command: " ++ command)]
                               | Some _ =>
                                   match arity_error (command :: args) command with
                                   | Some message => [makeError i message]
                                   | None => []
                                   end
                               end
                           end)
             /\ match List.concat contributions with
                | [] => exists code, compile script = Compiled code
                | all_errors => compile script = Failed all_errors
                end).
Proof.
  intros index line output errors. repeat apply conj.
  - rewrite compile_line_acc.
    destruct (reported_cases index line) as [->|(message & -> & ->)].
    + left. now rewrite app_nil_r.
    + right. exists message. now rewrite sapp_nil_r.
  - intros command args Ht Hc. unfold compile_line. now rewrite Ht, Hc.
  - intros command args opcode message Ht Hc Ha. unfold compile_line.
    now rewrite Ht, Hc, Ha.
  - intros script errs. rewrite compile_unfold. cbv zeta.
    destruct (flat_map _ _) as [|e es] eqn:E; [discriminate|].
    intros [= <-]. rewrite <- E.
    assert (Hlen : length (enumerate (split nl script)) = length (split nl script)).
    { unfold enumerate. rewrite length_combine, length_seq. apply Nat.min_id. }
    rewrite <- Hlen. generalize (enumerate (split nl script)). intros lines.
    induction lines as [|[i l] lines IH]; [reflexivity|].
    cbn [flat_map fst snd length]. rewrite length_app.
    destruct (reported_cases i l) as [->|(m & -> & _)]; cbn [length]; lia.
  - intros script.
    exists (map (fun il => reported (fst il) (snd il))
              (enumerate (split nl script))).
    repeat apply conj.
    + rewrite length_map. unfold enumerate.
      rewrite length_combine, length_seq. apply Nat.min_id.
    + intros i physical_line Hn. exists (reported i physical_line).
      repeat apply conj.
      * rewrite nth_error_map, (nth_error_enumerate _ _ _ Hn). reflexivity.
      * destruct (reported_cases i physical_line) as [->|(m & -> & _)];
          cbn [length]; lia.
      * unfold reported, compile_line.
        destruct (tokenize physical_line) as [|command args]; [reflexivity|].
        destruct (dict_get command REVERSE_SCRIPT_COMMANDS); [|reflexivity].
        now destruct (arity_error (command :: args) command).
    + rewrite <- flat_map_concat_map, compile_unfold. cbv zeta.
      destruct (flat_map _ _); [eauto|reflexivity].
Qed.

Lemma at_most_one_error_per_line_witness :
  compile_line 4 "foo 1 2" ("K.1", ["Line 2: x"])
  = ("K.1", ["Line 2: x"; "Line 5: Unknown command: foo"])
  /\ compile_line 4 "goto" ("K.1", ["Line 2: x"])
     = ("K.1", ["Line 2: x";
                "Line 5: Command goto takes exactly 1 arguments: labelId"])
  /\ length ["Line 1: Unknown command: foo"] <= length (split nl "foo")
  /\ compile ("foo 1 2" ++ nl ++ "exit" ++ nl ++ "goto")
     = Failed ["Line 1: Unknown command: foo";
               "Line 3: Command goto takes exactly 1 arguments: labelId"].
Proof.
  destruct (at_most_one_error_per_line 4 "foo 1 2" "K.1" ["Line 2: x"])
    as (_ & Hunknown & _ & _ & _).
  destruct (at_most_one_error_per_line 4 "goto" "K.1" ["Line 2: x"])
    as (_ & _ & Harity & Hcount & Hlines).
  split; [|split; [|split]].
  - exact (Hunknown "foo" ["1"; "2"] eq_refl eq_refl).
  - exact (Harity "goto" [] "K"
             "Command goto takes exactly 1 arguments: labelId"
             eq_refl eq_refl eq_refl).
  - exact (Hcount "foo" ["Line 1: Unknown command: foo"] eq_refl).
  - destruct (Hlines ("foo 1 2" ++ nl ++ "exit" ++ nl ++ "goto"))
      as (contributions & Hlen & Hnth & Hall).
    destruct contributions as [|c0 [|c1 [|c2 [|c3 rest]]]];
      try discriminate Hlen.
    destruct (Hnth 0 "foo 1 2" eq_refl) as (x0 & E0 & _ & H0).
    destruct (Hnth 1 "exit" eq_refl) as (x1 & E1 & _ & H1).
    destruct (Hnth 2 "goto" eq_refl) as (x2 & E2 & _ & H2).
    injection E0 as <-. injection E1 as <-. injection E2 as <-.
    rewrite H0, H1, H2 in Hall. exact Hall.
Defined.

(** C3, as stated, fails: a blank first line followed by a command gives
    packed text that starts with a newline. *)
Lemma leading_blank_line_counterexample :
  tokenize "" = []
  /\ tokenize "exit" = ["exit"]
  /\ compile ("" ++ nl ++ "exit") = Compiled (nl ++ "%" ++ nl)
  /\ startswith (nl ++ "%" ++ nl) nl = true.
Proof. vm_compute. repeat split. Qed.

(** C3, amended: the newline is written before the opcode of a compiled
    line exactly when the line is not the first physical line of the script
    ([index > 0]).  Hence the packed text of a script that compiles starts
    with a newline exactly when its first physical line is blank or holds
    only a comment. *)
Theorem newline_precedes_all_but_the_first_physical_line :
  (forall index line command args opcode output errors,
      tokenize line = command :: args ->
      dict_get command REVERSE_SCRIPT_COMMANDS = Some opcode ->
      arity_error (command :: args) command = None ->
      compile_line index line (output, errors)
      = (output ++ (if (0 <? index)%nat then nl else "")
                ++ packed_line opcode args, errors))
  /\ (forall script code,
         compile script = Compiled code ->
         (startswith code nl = true
          <-> tokenize (hd "" (split nl script)) = [])).
Proof.
  split.
  - intros index line command args opcode output errors Ht Ho Ha.
    rewrite compile_line_acc.
    destruct (emitted_good index line command args opcode Ht Ho Ha) as [-> ->].
    now rewrite app_nil_r.
  - intros script code. rewrite compile_unfold. cbv zeta.
    destruct (split nl script) as [|l0 rest] eqn:Hs;
      [now apply split_not_nil in Hs|].
    rewrite enumerate_cons. cbn [flat_map map flat fst snd hd].
    destruct (reported 0 l0 ++ _)%list eqn:E; [|discriminate].
    apply app_eq_nil in E as [E0 Erest]. intros [= <-].
    destruct (later_lines_start_with_newline
                (combine (seq 1 (length rest)) rest)
                (combine_seq_positive rest 1 Nat.lt_0_1) Erest)
      as [tail Htail].
    destruct (silent_cases 0 l0 E0) as [[Ht ->]|(c & a & o & Ht & Ho & _ & ->)].
    + cbn [append]. rewrite Htail. split; [intros _; exact Ht|intros _].
      unfold startswith, nl. cbn [append prefix].
      destruct (ascii_dec NL NL); [apply prefix_nil|congruence].
    + rewrite Ht. cbn [Nat.ltb Nat.leb append]. unfold packed_line.
      apply opcodes_ok in Ho. destruct o as [|ch [|]]; try discriminate.
      cbn [append]. unfold startswith, nl. cbn [prefix].
      destruct (ascii_dec NL ch) as [<-|_]; [discriminate|].
      split; discriminate.
Qed.

Lemma newline_precedes_all_but_the_first_physical_line_witness :
  compile_line 1 "exit" ("", []) = (nl ++ "%", [])
  /\ startswith (nl ++ "%" ++ nl) nl = true
  /\ startswith ("%" ++ nl ++ "%" ++ nl) nl = false.
Proof.
  destruct newline_precedes_all_but_the_first_physical_line as [Hline Hstart].
  split; [|split].
  - exact (Hline 1 "exit" "exit" [] "%" "" [] eq_refl eq_refl eq_refl).
  - apply (Hstart ("" ++ nl ++ "exit") (nl ++ "%" ++ nl) eq_refl). reflexivity.
  - destruct (startswith ("%" ++ nl ++ "%" ++ nl) nl) eqn:E; [|reflexivity].
    apply (Hstart ("exit" ++ nl ++ "exit") ("%" ++ nl ++ "%" ++ nl) eq_refl) in E.
    discriminate E.
Defined.

(** * Properties of the decompiler *)

(** C1, as the code has it: a packed line that holds the opcode of
    [wizform] and no argument makes the annotation read [arguments[1]] of an
    empty list, and [decompile] raises [IndexError], whatever the
    connection. *)
Lemma decompile_raises_on_missing_arguments :
  forall sql : sql_connection,
    makeDecompiledParameterComment "wizform" [] sql = Raise IndexError
    /\ decompile sql "'" = Raise IndexError
    /\ decompile sql ("%" ++ nl ++ "!" ++ nl ++ "%") = Raise IndexError.
Proof. intros sql. repeat split. Qed.

(** C8: an argument read as an index into a static table (the element
    classes of [ifPlayerHasSpecials], the animations of [playAnimation] and
    [playPlayerAnimation]) that is not a number, is negative or is at least
    the length of the table is annotated with "NULL"; the lookup itself never
    raises. *)
Theorem out_of_range_index_is_annotated_NULL :
  (forall string_list argument,
      (exists s, indexListByMaybeInt string_list argument = Return s)
      /\ (unresolvable string_list argument ->
          indexListByMaybeInt string_list argument = Return "NULL"))
  /\ (forall argument rest,
         unresolvable ELEMENT_CLASSES argument ->
         makeDecompiledSpecialsComment ("3" :: argument :: rest)
         = Return "; Player can show NULL Fairy")
  /\ (forall sql command argument rest,
         command = "playAnimation" \/ command = "playPlayerAnimation" ->
         unresolvable AVAILABLE_ANIMATIONS argument ->
         makeDecompiledParameterComment command (argument :: rest) sql
         = Return " // animationType, UNUSED; Animation: NULL")
  /\ (forall sql,
         decompile sql "@.3.99"
         = Return ("ifPlayerHasSpecials 3 99 // condition, argument; "
                   ++ "Player can show NULL Fairy" ++ nl)).
Proof.
  repeat split.
  - apply indexListByMaybeInt_returns.
  - apply indexListByMaybeInt_unresolvable.
  - intros argument rest H. unfold makeDecompiledSpecialsComment.
    cbn [getitem nth_error bind String.eqb Ascii.eqb Bool.eqb].
    now rewrite (indexListByMaybeInt_unresolvable _ _ H).
  - intros sql command argument rest [-> | ->] H;
      unfold makeDecompiledParameterComment;
      cbn -[indexListByMaybeInt AVAILABLE_ANIMATIONS];
      now rewrite (indexListByMaybeInt_unresolvable _ _ H).
Qed.

Lemma out_of_range_index_is_annotated_NULL_witness :
  indexListByMaybeInt ELEMENT_CLASSES "99" = Return "NULL"
  /\ makeDecompiledSpecialsComment ["3"; "-1"]
     = Return "; Player can show NULL Fairy"
  /\ makeDecompiledParameterComment "playAnimation" ["x"; "0"] empty_db
     = Return " // animationType, UNUSED; Animation: NULL".
Proof.
  destruct out_of_range_index_is_annotated_NULL as (Hi & Hs & Ha & _).
  split; [|split].
  - apply (proj2 (Hi ELEMENT_CLASSES "99")). vm_compute. right. discriminate.
  - apply (Hs "-1" []). vm_compute. left. reflexivity.
  - apply (Ha empty_db "playAnimation" "x" ["0"]); [now left|].
    vm_compute. exact I.
Defined.

(** C4, as stated, fails: in a nested block the inner [if] is written
    four spaces deep and the [else] that belongs to it at depth 0. *)
Lemma nested_else_counterexample :
  exists if_line else_line,
    decompile empty_db ("=.1" ++ nl ++ "=.2" ++ nl ++ "8")
    = Return ("ifTriggerIsActive 1 // id" ++ nl
              ++ if_line ++ nl ++ else_line ++ nl)
    /\ if_line = "    ifTriggerIsActive 2 // id"
    /\ else_line = "else"
    /\ leading_spaces if_line = 4
    /\ leading_spaces else_line = 0.
Proof.
  exists "    ifTriggerIsActive 2 // id", "else". repeat split.
Qed.

(** C4, amended: a line that decompiles to [else] is written with no
    indentation at all, whatever the depth of the block it is in, and leaves
    the depth as it is; an [if] command reached at depth [d] is written [d]
    spaces deep and opens a block at [d + 4].  So [else] is never deeper
    than its [if], and level with it exactly when that [if] is at depth 0. *)
Theorem else_is_written_at_depth_zero :
  (forall sql line result indentation,
      mnemonic_of line = Some "else" ->
      let written := "else" ++ printed_args (tokens_of line) ++ nl in
      decompile_line sql line (result, indentation)
      = Return (result ++ written, indentation)
      /\ leading_spaces written = 0)
  /\ (forall sql line result indentation command out indentation',
         mnemonic_of line = Some command ->
         startswith command "if" = true ->
         decompile_line sql line (result, indentation)
         = Return (out, indentation') ->
         indentation' = (indentation + 4)%Z
         /\ exists rest,
             out = result ++ spaces (Z.to_nat indentation) ++ command ++ rest
             /\ leading_spaces (spaces (Z.to_nat indentation) ++ command)
                = Z.to_nat indentation).
Proof.
  split.
  - intros sql line result indentation Hm. cbv zeta.
    rewrite (decompile_line_command sql line result indentation _ Hm).
    split; reflexivity.
  - intros sql line result indentation command out indentation' Hm Hif.
    rewrite (decompile_line_command sql line result indentation _ Hm).
    rewrite Hif.
    destruct (String.eqb_spec command "endIf") as [->|_]; [discriminate Hif|].
    destruct (String.eqb_spec command "else") as [->|_]; [discriminate Hif|].
    destruct (comment_of _ _ _) as [comment|e]; [|discriminate].
    cbn [bind]. intros [= <- <-]. split; [reflexivity|].
    eexists. split.
    + reflexivity.
    + assert (H0 : leading_spaces command = 0).
      { destruct command as [|c1 command]; [reflexivity|].
        unfold startswith in Hif. cbn [prefix] in Hif.
        destruct (ascii_dec "i" c1) as [<-|]; [reflexivity|discriminate]. }
      generalize (Z.to_nat indentation). intros n.
      induction n as [|n IH]; [exact H0|]. cbn [spaces append leading_spaces].
      now rewrite IH.
Qed.

Lemma else_is_written_at_depth_zero_witness :
  decompile_line empty_db "8" ("x", 8%Z) = Return ("x" ++ "else" ++ nl, 8%Z)
  /\ exists rest,
      "    ifTriggerIsActive 2 // id" ++ nl
      = "" ++ spaces 4 ++ "ifTriggerIsActive" ++ rest.
Proof.
  destruct else_is_written_at_depth_zero as [Helse Hif].
  split.
  - exact (proj1 (Helse empty_db "8" "x" 8%Z eq_refl)).
  - destruct (Hif empty_db "=.2" "" 4%Z "ifTriggerIsActive"
                ("    ifTriggerIsActive 2 // id" ++ nl) 8%Z
                eq_refl eq_refl eq_refl) as (_ & rest & Hout & _).
    exists rest. exact Hout.
Defined.

(** C10: when the connection answers with strings free of newlines,
    the text [decompile] returns holds one newline more than its input: one
    line is written, and ended by a newline, for each line read.  It returns
    whenever every command line carries at least as many arguments as its
    command has parameters.
    A packed text that ends in a newline is decompiled to the text of what
    precedes that newline followed by one more, empty, line. *)
Theorem decompile_writes_one_line_per_line :
  forall sql script,
    resolver_newline_free sql ->
    (forall out,
        decompile sql script = Return out ->
        count_char NL out = count_char NL script + 1)
    /\ (Forall enough_arguments (split nl script) ->
        exists out, decompile sql script = Return out)
    /\ decompile sql (script ++ nl)
       = (out <- decompile sql script ;; Return (out ++ nl)).
Proof.
  intros sql script Hsql. repeat split.
  - intros out. unfold decompile.
    destruct (decompile_loop sql (split nl script) ("", 0%Z)) as [[r i]|e] eqn:E;
      cbn [bind]; [|discriminate].
    intros [= <-]. cbn [fst].
    apply decompile_loop_count in E;
      [|assumption|apply (split_pieces_free NL script)].
    rewrite E. unfold nl. rewrite length_split. reflexivity.
  - intros Hall. unfold decompile.
    destruct (decompile_loop_returns sql (split nl script) ("", 0%Z) Hall)
      as [st ->].
    cbn [bind]. eauto.
  - unfold decompile, nl. rewrite split_snoc, decompile_loop_app.
    destruct (decompile_loop sql (split (String NL "") script) ("", 0%Z))
      as [[r i]|e]; [|reflexivity].
    cbn [bind decompile_loop].
    rewrite (decompile_line_raw sql "" r i eq_refl). reflexivity.
Qed.

Lemma decompile_writes_one_line_per_line_witness :
  count_char NL ("say 3 0 // dialogUid, silent; NULL" ++ nl ++ "exit" ++ nl ++ nl)
  = count_char NL ("!.3.0" ++ nl ++ "%" ++ nl) + 1
  /\ exists out, decompile empty_db ("!.3.0" ++ nl ++ "%" ++ nl) = Return out.
Proof.
  assert (H : resolver_newline_free empty_db) by (intros q p s; discriminate).
  destruct (decompile_writes_one_line_per_line
              empty_db ("!.3.0" ++ nl ++ "%" ++ nl) H) as (Hcount & Hret & _).
  split.
  - apply Hcount. reflexivity.
  - apply Hret. repeat constructor; vm_compute; lia.
Defined.


(** The opcode of [catchWizform] is the dot itself: its packed line splits
    into two empty tokens and is copied instead of decompiled. *)
Lemma catchWizform_is_not_decompiled :
  forall sql,
    compile "catchWizform" = Compiled ("." ++ nl)
    /\ decompile sql ("." ++ nl) = Return ("." ++ nl ++ nl).
Proof. intros sql. split; reflexivity. Qed.



(** * The compiled text as a whole, and what the decompiler makes of it *)

Module Pipeline.

Lemma pack_good line command args opcode :
  tokenize line = command :: args ->
  dict_get command REVERSE_SCRIPT_COMMANDS = Some opcode ->
  pack line = packed_line opcode args.
Proof. intros Ht Ho. unfold pack. now rewrite Ht, Ho. Qed.

Lemma is_blank_good line command args :
  tokenize line = command :: args -> is_blank line = false.
Proof. intros Ht. unfold is_blank. now rewrite Ht. Qed.

Lemma is_blank_nil line : tokenize line = [] -> is_blank line = true.
Proof. intros Ht. unfold is_blank. now rewrite Ht. Qed.

(** What the lines after the first add to the output. *)
Lemma later_lines_emitted lines start :
  0 < start ->
  flat_map (fun il => reported (fst il) (snd il))
    (combine (seq start (length lines)) lines) = [] ->
  flat (map (fun il => emitted (fst il) (snd il))
          (combine (seq start (length lines)) lines))
  = flat (map (fun p => nl ++ p)
            (map pack (filter (fun l => negb (is_blank l)) lines))).
Proof.
  revert start. induction lines as [|l lines IH]; intros start Hs Herr;
    [reflexivity|].
  cbn [length seq combine map flat flat_map fst snd filter] in *.
  apply app_eq_nil in Herr as [Hl Hrest].
  rewrite (IH (S start) (Nat.lt_0_succ start) Hrest).
  destruct (silent_cases start l Hl)
    as [[Ht ->]|(c & a & o & Ht & Ho & _ & ->)].
  - now rewrite (is_blank_nil l Ht).
  - rewrite (is_blank_good l c a Ht). cbn [negb map flat].
    rewrite (pack_good l c a o Ht Ho).
    destruct (Nat.ltb_spec 0 start); [reflexivity|lia].
Qed.

Lemma compile_packed_lines script code :
  compile script = Compiled code ->
  code = join nl (packed_lines (split nl script)) ++ nl.
Proof.
  rewrite compile_unfold. cbv zeta.
  destruct (split nl script) as [|l0 rest] eqn:Hs;
    [now apply split_not_nil in Hs|].
  rewrite enumerate_cons. cbn [flat_map map flat fst snd].
  destruct (reported 0 l0 ++ _)%list eqn:E; [|discriminate].
  apply app_eq_nil in E as [E0 Erest]. intros [= <-].
  rewrite (later_lines_emitted rest 1 Nat.lt_0_1 Erest).
  unfold packed_lines. rewrite join_cons. f_equal. f_equal.
  destruct (silent_cases 0 l0 E0) as [[Ht ->]|(c & a & o & Ht & Ho & _ & ->)].
  - now rewrite (is_blank_nil l0 Ht).
  - rewrite (is_blank_good l0 c a Ht), (pack_good l0 c a o Ht Ho). reflexivity.
Qed.

(** The tokens of a line hold only characters of the line. *)
Lemma tokenize_all_chars p line :
  all_chars p line = true ->
  Forall (fun t => all_chars p t = true) (tokenize line).
Proof.
  intros H. unfold tokenize, splitByWhitespace.
  apply (all_chars_split p "//") in H.
  assert (Hhd : all_chars p (hd "" (split "//" line)) = true).
  { destruct (split "//" line); [reflexivity|]. now inversion H. }
  apply (all_chars_split p " ") in Hhd.
  rewrite Forall_forall in *. intros t Ht. apply filter_In in Ht as [Ht _].
  now apply Hhd.
Qed.

Lemma opcode_newline_free command opcode :
  dict_get command REVERSE_SCRIPT_COMMANDS = Some opcode ->
  all_chars not_newline opcode = true.
Proof.
  intros H.
  exact (dict_get_all (fun kv => all_chars not_newline (snd kv))
           REVERSE_SCRIPT_COMMANDS command opcode eq_refl H).
Qed.

Lemma pack_newline_free line :
  count_char NL line = 0 -> count_char NL (pack line) = 0.
Proof.
  intros H. apply count_all_chars in H. apply count_all_chars.
  apply tokenize_all_chars in H. unfold pack.
  destruct (tokenize line) as [|command args]; [reflexivity|].
  destruct (dict_get command REVERSE_SCRIPT_COMMANDS) as [opcode|] eqn:Ho;
    [|reflexivity].
  inversion H as [|? ? _ Hargs]; subst.
  unfold packed_line. rewrite all_chars_app.
  rewrite (opcode_newline_free command opcode Ho). cbn [andb].
  destruct args as [|a args]; [reflexivity|].
  rewrite all_chars_app. cbn [andb].
  change (all_chars not_newline ".") with true. cbn [andb].
  now apply all_chars_join.
Qed.

Lemma packed_lines_newline_free lines :
  Forall (fun l => count_char NL l = 0) lines ->
  Forall (fun p => count_char NL p = 0) (packed_lines lines).
Proof.
  intros H. destruct lines as [|l0 rest]; [constructor|].
  inversion H as [|? ? H0 Hrest]; subst. unfold packed_lines. constructor.
  - destruct (is_blank l0); [reflexivity|now apply pack_newline_free].
  - apply Forall_forall. intros p Hp.
    apply in_map_iff in Hp as (l & <- & Hl). apply filter_In in Hl as [Hl _].
    apply pack_newline_free. rewrite Forall_forall in Hrest. now apply Hrest.
Qed.

(** The lines [decompile] reads in the text of a compiled script. *)
Lemma compiled_text_lines script code :
  compile script = Compiled code ->
  split nl code = (packed_lines (split nl script) ++ [""])%list.
Proof.
  intros H. rewrite (compile_packed_lines script code H).
  unfold nl. rewrite split_snoc. f_equal. apply split_join.
  - pose proof (split_not_nil (String NL "") script) as Hne.
    destruct (split (String NL "") script); [congruence|discriminate].
  - apply packed_lines_newline_free. apply split_pieces_free.
Qed.

(** *** The decompiler on one packed line *)

Lemma rstrip_cons c s :
  isspace c = false -> rstrip (String c s) = String c (rstrip s).
Proof. intros Hc. cbn [rstrip]. rewrite Hc. now destruct (rstrip s). Qed.

Lemma count_rstrip d s :
  isspace d = false -> count_char d (rstrip s) = count_char d s.
Proof.
  intros Hd. induction s as [|a s IH]; [reflexivity|].
  cbn [rstrip]. destruct (rstrip s) as [|b r] eqn:E.
  - cbn [count_char] in *. rewrite <- IH.
    destruct (isspace a) eqn:Ha; cbn [count_char]; [|lia].
    destruct (Ascii.eqb_spec a d) as [->|_]; [congruence|reflexivity].
  - cbn [count_char] in *. now rewrite IH.
Qed.

Lemma count_join_dots (args : list string) :
  length args <= count_char "." (join "." args) + 1.
Proof.
  induction args as [|a args IH]; [cbn; lia|].
  destruct args as [|b args]; [cbn [length]; lia|].
  change (join "." (a :: b :: args)) with (a ++ "." ++ join "." (b :: args)).
  rewrite !count_char_app. cbn [length] in *.
  change (count_char "." ".") with 1. lia.
Qed.

(** A packed command line gives the decompiler its opcode and at least as
    many arguments as were compiled. *)
Lemma tokens_of_packed c args :
  isspace c = false -> c <> "."%char ->
  exists rest,
    tokens_of (packed_line (String c "") args) = String c "" :: rest
    /\ length args <= length rest.
Proof.
  intros Hsp Hdot. unfold tokens_of, packed_line, strip.
  assert (Hne : (c =? ".")%char = false) by now apply Ascii.eqb_neq.
  destruct args as [|a args].
  - exists []. cbn [append lstrip]. rewrite Hsp, rstrip_cons by assumption.
    cbn [rstrip]. rewrite split_cons, Hne. split; [reflexivity|cbn; lia].
  - set (j := join "." (a :: args)).
    exists (split "." (rstrip j)). cbn [append lstrip]. rewrite Hsp.
    rewrite rstrip_cons by assumption. rewrite rstrip_cons by reflexivity.
    rewrite split_cons, Hne, split_cons. cbn [cons_head Ascii.eqb].
    split; [reflexivity|].
    rewrite length_split, count_rstrip by reflexivity.
    apply count_join_dots.
Qed.

Lemma arity_error_length command args :
  arity_error (command :: args) command = None ->
  match dict_get command script_command_parameters with
  | Some parameters => length parameters = length args
  | None => args = []
  end.
Proof.
  unfold arity_error. cbn [length]. rewrite Nat.sub_succ, Nat.sub_0_r.
  destruct (dict_get command script_command_parameters) as [ps|].
  - destruct (Nat.eqb_spec (length args) (length ps)); [auto|discriminate].
  - destruct args; [reflexivity|discriminate].
Qed.

Lemma packed_line_enough command args opcode :
  dict_get command REVERSE_SCRIPT_COMMANDS = Some opcode ->
  arity_error (command :: args) command = None ->
  enough_arguments (packed_line opcode args).
Proof.
  intros Ho Ha. apply arity_error_length in Ha.
  destruct (String.eqb_spec command "catchWizform") as [->|Hc].
  - injection Ho as <-. cbn in Ha. subst args. exact I.
  - pose proof (opcodes_ok command opcode Ho) as Hok.
    pose proof (opcode_dot_free command opcode Ho Hc) as Hnd.
    destruct opcode as [|c [|]]; try discriminate Hok.
    cbn in Hok. apply negb_true_iff in Hok.
    unfold no_dot in Hnd. cbn [all_chars] in Hnd.
    rewrite andb_true_r in Hnd. apply negb_true_iff, Ascii.eqb_neq in Hnd.
    destruct (tokens_of_packed c args Hok Hnd) as (rest & Htok & Hlen).
    unfold enough_arguments, mnemonic_of. rewrite Htok. cbn [hd tl].
    rewrite (opcode_of_mnemonic command (String c "") Ho).
    destruct (dict_get command script_command_parameters); [lia|exact I].
Qed.

Lemma packed_lines_enough lines :
  flat_map (fun il => reported (fst il) (snd il)) (enumerate lines) = [] ->
  Forall enough_arguments (packed_lines lines).
Proof.
  assert (Hone : forall i l, reported i l = [] -> is_blank l = false ->
                             enough_arguments (pack l)).
  { intros i l Hr Hb.
    destruct (silent_cases i l Hr) as [[Ht _]|(c & a & o & Ht & Ho & Ha & _)].
    - rewrite (is_blank_nil l Ht) in Hb. discriminate.
    - rewrite (pack_good l c a o Ht Ho). now apply (packed_line_enough c). }
  destruct lines as [|l0 rest]; [constructor|].
  rewrite enumerate_cons. cbn [flat_map fst snd]. intros E.
  apply app_eq_nil in E as [E0 Erest]. unfold packed_lines. constructor.
  - destruct (is_blank l0) eqn:Hb; [exact I|now apply (Hone 0)].
  - apply Forall_forall. intros p Hp.
    apply in_map_iff in Hp as (l & <- & Hl). apply filter_In in Hl as [Hl Hb].
    apply negb_true_iff in Hb.
    assert (Hi : exists i, In (i, l) (combine (seq 1 (length rest)) rest)).
    { apply In_nth_error in Hl as [n Hn]. exists (1 + n).
      apply in_combine_seq. split; [lia|].
      now replace (1 + n - 1) with n by lia. }
    destruct Hi as [i Hi]. apply (Hone i); [|exact Hb].
    destruct (reported i l) eqn:Hr; [reflexivity|].
    assert (Hin : In s (flat_map (fun il => reported (fst il) (snd il))
                          (combine (seq 1 (length rest)) rest))).
    { apply in_flat_map. exists (i, l). split; [exact Hi|].
      cbn [fst snd]. rewrite Hr. now left. }
    rewrite Erest in Hin. contradiction.
Qed.

End Pipeline.

Import Pipeline.

(** * Compiling depends on the tokens only *)

Module Tokens.

Lemma compile_line_tokens index l1 l2 st :
  tokenize l1 = tokenize l2 ->
  compile_line index l1 st = compile_line index l2 st.
Proof. intros H. unfold compile_line. destruct st. now rewrite H. Qed.

Lemma compile_loop_tokens ls1 ls2 start st :
  map tokenize ls1 = map tokenize ls2 ->
  compile_loop (combine (seq start (length ls1)) ls1) st
  = compile_loop (combine (seq start (length ls2)) ls2) st.
Proof.
  revert ls2 start st. induction ls1 as [|l1 ls1 IH]; intros [|l2 ls2] start st H;
    try discriminate; [reflexivity|].
  injection H as H1 H. unfold compile_loop in *.
  cbn [length seq combine fold_left fst snd].
  rewrite (compile_line_tokens start l1 l2 st H1). now apply IH.
Qed.

Lemma compile_same_tokens s1 s2 :
  map tokenize (split nl s1) = map tokenize (split nl s2) ->
  compile s1 = compile s2.
Proof.
  intros H. unfold compile, enumerate.
  now rewrite (compile_loop_tokens (split nl s1) (split nl s2) 0 ("", []) H).
Qed.

Lemma compile_line_blank index line st :
  tokenize line = [] -> compile_line index line st = st.
Proof.
  intros H. unfold compile_line. destruct st as [output errors].
  rewrite H. cbn. now rewrite sapp_nil_r.
Qed.

Lemma compile_loop_blanks blanks start st :
  Forall (fun l => tokenize l = []) blanks ->
  compile_loop (combine (seq start (length blanks)) blanks) st = st.
Proof.
  revert start st. induction blanks as [|l blanks IH]; intros start st H;
    [reflexivity|].
  inversion H; subst. unfold compile_loop in *.
  cbn [length seq combine fold_left fst snd].
  rewrite compile_line_blank by assumption. now apply IH.
Qed.

Lemma combine_seq_app {A} (l1 l2 : list A) start :
  combine (seq start (length (l1 ++ l2))) (l1 ++ l2)
  = (combine (seq start (length l1)) l1
     ++ combine (seq (start + length l1) (length l2)) l2)%list.
Proof.
  revert start. induction l1 as [|x l1 IH]; intros start.
  - cbn. now rewrite Nat.add_0_r.
  - cbn [app length seq combine]. rewrite IH. cbn [app].
    now rewrite Nat.add_succ_r.
Qed.

(** Blank lines at the end of a script change nothing. *)
Lemma compile_loop_trailing_blanks lines blanks st :
  Forall (fun l => tokenize l = []) blanks ->
  compile_loop (enumerate (lines ++ blanks)) st
  = compile_loop (enumerate lines) st.
Proof.
  intros H. unfold enumerate. rewrite combine_seq_app.
  unfold compile_loop. rewrite fold_left_app.
  now apply (compile_loop_blanks blanks).
Qed.

End Tokens.

Import Tokens.

(** * Reading back the text of the decompiler *)

Module ReadBack.

Lemma prefix_cons a p b s :
  prefix (String a p) (String b s) = (a =? b)%char && prefix p s.
Proof.
  cbn [prefix]. destruct (ascii_dec a b) as [<-|N].
  - now rewrite Ascii.eqb_refl.
  - apply Ascii.eqb_neq in N. now rewrite N.
Qed.

Lemma prefix_slashes c z :
  prefix "//" (String c z) = (c =? "/")%char && first_is_slash z.
Proof.
  rewrite prefix_cons, (Ascii.eqb_sym "/" c). f_equal.
  destruct z as [|d z]; [reflexivity|].
  rewrite prefix_cons, prefix_nil, andb_true_r. apply Ascii.eqb_sym.
Qed.

Lemma no_comment_cons c s :
  no_comment (String c s)
  = negb ((c =? "/")%char && first_is_slash s) && no_comment s.
Proof. cbn [no_comment]. now rewrite prefix_slashes. Qed.

Lemma first_is_slash_app a b :
  a <> "" -> first_is_slash (a ++ b) = first_is_slash a.
Proof. destruct a; [congruence|reflexivity]. Qed.

Lemma no_comment_app_r a b : no_comment (a ++ b) = true -> no_comment b = true.
Proof.
  induction a as [|c a IH]; [auto|]. cbn [append]. rewrite no_comment_cons.
  intros H. apply andb_true_iff in H as [_ H]. now apply IH.
Qed.

Lemma no_comment_app_l a b : no_comment (a ++ b) = true -> no_comment a = true.
Proof.
  induction a as [|c a IH]; [reflexivity|]. cbn [append].
  rewrite !no_comment_cons. intros H. apply andb_true_iff in H as [H1 H2].
  rewrite (IH H2), andb_true_r. destruct a as [|d a]; [|exact H1].
  cbn [first_is_slash]. now rewrite andb_false_r.
Qed.

Lemma no_comment_app_space a b :
  no_comment a = true -> no_comment b = true ->
  no_comment (a ++ String " " b) = true.
Proof.
  intros Ha Hb. induction a as [|c a IH].
  - cbn [append]. rewrite no_comment_cons. now rewrite Hb.
  - cbn [append]. rewrite no_comment_cons in *.
    apply andb_true_iff in Ha as [H1 H2]. rewrite (IH H2), andb_true_r.
    destruct a as [|d a]; [|exact H1].
    cbn [append first_is_slash Ascii.eqb]. now rewrite andb_false_r.
Qed.

Lemma hd_split_from_cons c s :
  prefix "//" (String c s) = false ->
  hd "" (split "//" (String c s)) = String c (hd "" (split "//" s)).
Proof.
  intros H. unfold split. cbn [split_from]. rewrite H.
  pose proof (split_from_not_nil "//" 0 s) as Hne.
  now destruct (split_from "//" 0 s).
Qed.

Lemma hd_split_prefix s :
  prefix "//" s = true -> hd "" (split "//" s) = "".
Proof.
  intros H. destruct s as [|c s]; [reflexivity|].
  unfold split. cbn [split_from]. now rewrite H.
Qed.

Lemma first_is_slash_hd_split s :
  prefix "//" s = false ->
  first_is_slash (hd "" (split "//" s)) = first_is_slash s.
Proof.
  destruct s as [|c s]; [reflexivity|]. intros H.
  now rewrite (hd_split_from_cons c s H).
Qed.

(** What is left of the first [//] holds no [//]. *)
Lemma no_comment_hd_split s : no_comment (hd "" (split "//" s)) = true.
Proof.
  induction s as [|c s IH]; [reflexivity|].
  destruct (prefix "//" (String c s)) eqn:P.
  - now rewrite hd_split_prefix.
  - rewrite (hd_split_from_cons c s P), no_comment_cons, IH, andb_true_r.
    rewrite prefix_slashes in P.
    destruct (prefix "//" s) eqn:P'.
    + rewrite hd_split_prefix by assumption. cbn [first_is_slash].
      now rewrite andb_false_r.
    + rewrite first_is_slash_hd_split by assumption. now rewrite P.
Qed.

(** The pieces of a split are parts of the split string. *)
Lemma split_head_prefix c s h r :
  split (String c "") s = h :: r -> exists post, s = h ++ post.
Proof.
  revert h r. induction s as [|x s IH]; intros h r.
  - intros [= <- <-]. now exists "".
  - rewrite split_cons. destruct (x =? c)%char.
    + intros [= <- <-]. now exists (String x s).
    + pose proof (split_not_nil (String c "") s) as Hne.
      destruct (split (String c "") s) as [|h2 r2] eqn:E; [congruence|].
      cbn [cons_head]. intros [= <- <-].
      destruct (IH h2 r2 eq_refl) as [post ->]. now exists post.
Qed.

Lemma split_piece_inside c s t :
  In t (split (String c "") s) -> exists pre post, s = pre ++ t ++ post.
Proof.
  revert t. induction s as [|a s IH]; intros t.
  - intros [<-|[]]. now exists "", "".
  - rewrite split_cons. destruct (a =? c)%char.
    + intros [<-|Hin].
      * now exists "", (String a s).
      * destruct (IH t Hin) as (pre & post & ->). now exists (String a pre), post.
    + pose proof (split_not_nil (String c "") s) as Hne.
      destruct (split (String c "") s) as [|h rest] eqn:E; [congruence|].
      cbn [cons_head]. intros [<-|Hin].
      * destruct (split_head_prefix c s h rest E) as [post ->].
        now exists "", post.
      * destruct (IH t (or_intror Hin)) as (pre & post & ->).
        now exists (String a pre), post.
Qed.

Lemma tokens_no_comment line :
  Forall (fun t => no_comment t = true) (tokenize line).
Proof.
  unfold tokenize, splitByWhitespace. apply Forall_forall. intros t Ht.
  apply filter_In in Ht as [Ht _].
  apply split_piece_inside in Ht as (pre & post & Hs).
  pose proof (no_comment_hd_split line) as H. rewrite Hs in H.
  apply no_comment_app_r in H. now apply no_comment_app_l in H.
Qed.

Lemma tokens_plain line :
  Forall (fun t => t <> "" /\ count_char " " t = 0) (tokenize line).
Proof.
  unfold tokenize, splitByWhitespace. apply Forall_forall. intros t Ht.
  apply filter_In in Ht as [Ht Hne]. split.
  - intros ->. discriminate.
  - pose proof (split_pieces_free " " (hd "" (split "//" line))) as H.
    rewrite Forall_forall in H. now apply H.
Qed.

(** *** Tokens of a text put together from parts *)

Lemma split_app_sep c x y :
  split (String c "") (x ++ String c y)
  = (split (String c "") x ++ split (String c "") y)%list.
Proof.
  induction x as [|a x IH].
  - cbn [append]. now rewrite split_cons, Ascii.eqb_refl.
  - cbn [append]. rewrite !split_cons, IH.
    destruct (a =? c)%char; [reflexivity|].
    pose proof (split_not_nil (String c "") x) as Hne.
    now destruct (split (String c "") x).
Qed.

Lemma splitByWhitespace_app x y :
  splitByWhitespace (x ++ String " " y)
  = (splitByWhitespace x ++ splitByWhitespace y)%list.
Proof. unfold splitByWhitespace. now rewrite split_app_sep, filter_app. Qed.

Lemma splitByWhitespace_spaces n y :
  splitByWhitespace (spaces n ++ y) = splitByWhitespace y.
Proof.
  induction n as [|n IH]; [reflexivity|].
  cbn [spaces append].
  change (String " " (spaces n ++ y)) with ("" ++ String " " (spaces n ++ y)).
  now rewrite splitByWhitespace_app, IH.
Qed.

Lemma splitByWhitespace_token t :
  t <> "" -> count_char " " t = 0 -> splitByWhitespace t = [t].
Proof.
  intros Hne H. unfold splitByWhitespace. rewrite split_free by assumption.
  cbn [filter]. destruct (String.eqb_spec t ""); [contradiction|reflexivity].
Qed.

Lemma splitByWhitespace_join tokens :
  Forall (fun t => t <> "" /\ count_char " " t = 0) tokens ->
  splitByWhitespace (join " " tokens) = tokens.
Proof.
  induction 1 as [|t l [Hne Ht] _ IH]; [reflexivity|].
  destruct l as [|t' l].
  - now apply splitByWhitespace_token.
  - change (join " " (t :: t' :: l)) with (t ++ String " " (join " " (t' :: l))).
    rewrite splitByWhitespace_app, IH.
    now rewrite splitByWhitespace_token.
Qed.

Lemma no_comment_join tokens :
  Forall (fun t => no_comment t = true) tokens ->
  no_comment (join " " tokens) = true.
Proof.
  induction 1 as [|t l Ht _ IH]; [reflexivity|].
  destruct l as [|t' l]; [exact Ht|].
  change (join " " (t :: t' :: l)) with (t ++ String " " (join " " (t' :: l))).
  now apply no_comment_app_space.
Qed.

Lemma no_comment_spaces n y :
  no_comment y = true -> no_comment (spaces n ++ y) = true.
Proof.
  intros H. induction n as [|n IH]; [exact H|].
  cbn [spaces append]. rewrite no_comment_cons, IH.
  reflexivity.
Qed.

(** The text before the comment of a line. *)
Lemma hd_split_before_comment y r :
  no_comment y = true ->
  hd "" (split "//" (y ++ " //" ++ r)) = y ++ " ".
Proof.
  induction y as [|c y IH]; intros H.
  - cbn [append]. rewrite hd_split_from_cons by now rewrite prefix_slashes.
    rewrite hd_split_prefix; [reflexivity|].
    now rewrite !prefix_cons, prefix_nil.
  - cbn [append] in *. rewrite no_comment_cons in H.
    apply andb_true_iff in H as [H1 H2].
    rewrite hd_split_from_cons.
    + now rewrite (IH H2).
    + rewrite prefix_slashes. destruct y as [|d y].
      * cbn [append first_is_slash Ascii.eqb]. apply andb_false_r.
      * now apply negb_true_iff in H1.
Qed.

(** A line of decompiled text reads back as the tokens printed in it. *)
Lemma tokenize_decompiled_line depth tokens comment :
  Forall (fun t => t <> "" /\ count_char " " t = 0) tokens ->
  Forall (fun t => no_comment t = true) tokens ->
  comment = "" \/ (exists r, comment = " //" ++ r) ->
  tokenize (spaces depth ++ join " " tokens ++ comment) = tokens.
Proof.
  intros Hplain Hnc Hcomment.
  assert (Hy : no_comment (spaces depth ++ join " " tokens) = true)
    by now apply no_comment_spaces, no_comment_join.
  unfold tokenize. destruct Hcomment as [->|[r ->]].
  - rewrite sapp_nil_r, (split_no_comment _ Hy). cbn [hd].
    rewrite splitByWhitespace_spaces. now apply splitByWhitespace_join.
  - rewrite <- sapp_assoc, (hd_split_before_comment _ r Hy).
    change ((spaces depth ++ join " " tokens) ++ " ")
      with ((spaces depth ++ join " " tokens) ++ String " " "").
    rewrite splitByWhitespace_app, splitByWhitespace_spaces.
    rewrite splitByWhitespace_join by assumption.
    cbn. apply app_nil_r.
Qed.

Lemma comment_of_form sql command args comment :
  length args = arity command ->
  comment_of sql command args = Return comment ->
  comment = "" \/ exists r, comment = " //" ++ r.
Proof.
  unfold comment_of, dict_in, arity.
  destruct (dict_get command script_command_parameters) as [ps|] eqn:Hp.
  - intros Hlen Hc. right.
    destruct (comment_returns sql command args ps Hp) as [rest Hr]; [lia|].
    rewrite Hr in Hc. injection Hc as <-.
    exists (" " ++ join ", " ps ++ rest). cbn [append].
    now rewrite ?sapp_assoc.
  - intros _ [= <-]. now left.
Qed.

Lemma reproduced_lines sql commands text :
  resolver_newline_free sql ->
  Forall read_tokens commands ->
  reproduces sql commands text ->
  exists lines,
    split nl text = (lines ++ [""; ""])%list
    /\ map tokenize lines = commands.
Proof.
  intros Hsql Hall Hrep. induction Hrep as [|command args depth comment
                                            commands text Hc Hrep IH].
  - now exists [].
  - inversion Hall as [|? ? (Hplain & Hnc & Hnl & Hlen) Hrest]; subst.
    destruct (IH Hrest) as (lines & Hsplit & Hmap).
    set (line := spaces depth ++ join " " (command :: args) ++ comment).
    exists (line :: lines). split.
    + replace (spaces depth ++ join " " (command :: args) ++ comment ++ nl ++ text)
        with (line ++ String NL text)
        by (subst line; unfold nl; cbn [append]; now rewrite !sapp_assoc).
      unfold nl in *. rewrite split_app, Hsplit; [reflexivity|].
      unfold line. rewrite !count_char_app.
      rewrite count_spaces by discriminate.
      rewrite (join_newline_free " " (command :: args) eq_refl Hnl).
      apply (comment_of_newline_free sql command args comment Hsql) in Hc;
        [now rewrite Hc|].
      now inversion Hnl.
    + cbn [map]. rewrite Hmap. f_equal.
      apply tokenize_decompiled_line; try assumption.
      now apply (comment_of_form sql command args).
Qed.

Lemma dot_free_read_tokens line :
  count_char NL line = 0 ->
  dot_free_command_line line -> read_tokens (tokenize line).
Proof.
  intros Hnl (command & args & opcode & Ht & _ & Hlen & _).
  repeat split.
  - apply tokens_plain.
  - apply tokens_no_comment.
  - apply count_all_chars, (tokenize_all_chars not_newline) in Hnl.
    eapply Forall_impl; [|exact Hnl]. intros t. apply count_all_chars.
  - now rewrite Ht.
Qed.

End ReadBack.

Import ReadBack.

(** * More on the loop of the decompiler *)

Module DecompileMore.

Lemma flat_split_lines s :
  flat (map (fun l => l ++ nl) (split nl s)) = s ++ nl.
Proof.
  unfold nl. induction s as [|a s IH]; [reflexivity|].
  rewrite split_cons. destruct (Ascii.eqb_spec a NL) as [->|N].
  - cbn [map flat append]. now rewrite IH.
  - pose proof (split_not_nil (String NL "") s) as Hne.
    destruct (split (String NL "") s) as [|h t]; [congruence|].
    cbn [cons_head map flat append] in *. now rewrite IH.
Qed.

Lemma decompile_loop_raw sql lines result indentation :
  Forall (fun l => mnemonic_of l = None) lines ->
  decompile_loop sql lines (result, indentation)
  = Return (result ++ flat (map (fun l => l ++ nl) lines), indentation).
Proof.
  revert result. induction lines as [|l lines IH]; intros result H.
  - cbn. now rewrite sapp_nil_r.
  - inversion H; subst. cbn [decompile_loop map flat].
    rewrite decompile_line_raw by assumption. cbn [bind].
    rewrite IH by assumption. now rewrite !sapp_assoc.
Qed.

Lemma depth_ok_step indentation command :
  depth_ok indentation ->
  depth_ok
    (let depth := if (command =? "endIf")%string
                  then Z.max (indentation - 4) 0 else indentation in
     if startswith command "if" then (depth + 4)%Z else depth).
Proof.
  intros [Hpos [k Hk]]. cbv zeta.
  assert (Hd : depth_ok (if (command =? "endIf")%string
                         then Z.max (indentation - 4) 0 else indentation)).
  { destruct (command =? "endIf")%string; [|split; [lia|now exists k]].
    split; [lia|].
    destruct (Z.max_spec (indentation - 4) 0) as [[_ ->]|[_ ->]].
    - now exists 0%Z.
    - exists (k - 1)%Z. lia. }
  destruct (startswith command "if"); [|exact Hd].
  destruct Hd as [Hp [j Hj]]. split; [lia|]. exists (j + 1)%Z. lia.
Qed.

Lemma decompile_line_depth sql line result indentation out indentation' :
  depth_ok indentation ->
  decompile_line sql line (result, indentation) = Return (out, indentation') ->
  depth_ok indentation'.
Proof.
  intros Hok. destruct (mnemonic_of line) as [command|] eqn:Hm.
  - rewrite (decompile_line_command sql line result indentation _ Hm).
    destruct (comment_of _ _ _); cbn [bind]; [|discriminate].
    intros [= _ <-]. now apply depth_ok_step.
  - rewrite (decompile_line_raw sql line result indentation Hm).
    now intros [= _ <-].
Qed.

Lemma decompile_loop_depth sql lines result indentation out indentation' :
  depth_ok indentation ->
  decompile_loop sql lines (result, indentation) = Return (out, indentation') ->
  depth_ok indentation'.
Proof.
  revert result indentation. induction lines as [|l lines IH];
    intros result indentation Hok.
  - cbn. now intros [= _ <-].
  - cbn [decompile_loop].
    destruct (decompile_line sql l (result, indentation)) as [[r i]|e] eqn:E;
      cbn [bind]; [|discriminate].
    apply IH. now apply (decompile_line_depth sql l result indentation r i).
Qed.

End DecompileMore.

Import DecompileMore.

(** * The helpers of the editor *)

Module Helpers.

Lemma split_head_app c x y :
  count_char c x = 0 ->
  exists h r, split (String c "") (x ++ y) = (x ++ h) :: r.
Proof.
  induction x as [|a x IH]; intros H.
  - cbn [append]. pose proof (split_not_nil (String c "") y) as Hne.
    destruct (split (String c "") y) as [|h r]; [congruence|]. now exists h, r.
  - cbn [append]. rewrite split_cons. cbn [count_char] in H.
    destruct (a =? c)%char; [discriminate|].
    destruct (IH H) as (h & r & ->). now exists h, r.
Qed.

Lemma extractUid_reads_uid pre uid post :
  count_char "(" pre = 0 ->
  count_char "(" uid = 0 ->
  count_char ")" uid = 0 ->
  extractUid (pre ++ "(" ++ uid ++ ")" ++ post) = Return uid.
Proof.
  intros Hpre Hu1 Hu2. unfold extractUid. cbn [append].
  rewrite split_app by assumption.
  destruct (split_head_app "(" (uid ++ ")") post) as (h & r & Hs).
  { rewrite count_char_app, Hu1. reflexivity. }
  rewrite sapp_assoc in Hs. cbn [append] in Hs. rewrite Hs.
  cbn [getitem nth_error bind].
  rewrite sapp_assoc. cbn [append]. now rewrite split_app by assumption.
Qed.

Lemma extractUid_raises s :
  extractUid s = Raise IndexError <-> count_char "(" s = 0.
Proof.
  unfold extractUid. split.
  - intros H. pose proof (length_split "(" s) as Hlen.
    destruct (split "(" s) as [|a [|inner rest]] eqn:E; cbn [length] in Hlen;
      try lia.
    cbn [getitem nth_error bind] in H.
    pose proof (split_not_nil ")" inner) as Hne.
    destruct (split ")" inner); [congruence|discriminate H].
  - intros H. now rewrite split_free by assumption.
Qed.

(** *** Card ids *)

Lemma getCardEntityId_range card_id :
  (0 <= getCardEntityId card_id < 65536)%Z.
Proof.
  unfold getCardEntityId. change 65535%Z with (Z.ones 16).
  rewrite Z.land_ones by lia. apply Z.mod_pos_bound. reflexivity.
Qed.

Lemma getCardEntityId_field high entity low :
  (0 <= entity < 65536)%Z -> (0 <= low < 65536)%Z ->
  getCardEntityId (high * 4294967296 + entity * 65536 + low) = entity.
Proof.
  intros He Hl. unfold getCardEntityId. change 65535%Z with (Z.ones 16).
  rewrite Z.land_ones, Z.shiftr_div_pow2 by lia.
  change (2 ^ 16)%Z with 65536%Z.
  replace (high * 4294967296 + entity * 65536 + low)%Z
    with (low + (high * 65536 + entity) * 65536)%Z by lia.
  rewrite Z.div_add by lia. rewrite (Z.div_small low) by lia.
  cbn [Z.add]. rewrite Z.add_comm, Z.mod_add by lia.
  apply Z.mod_small. lia.
Qed.

(** *** Bounded lookups *)

Lemma resolveMana_cases id :
  resolveMana id
  = Return (Str (if ((id <? 0) || (6 <=? id))%Z then "NULL"
                 else nth (Z.to_nat id) ["5"; "15"; "30"; "40"; "55"] "-/-")).
Proof.
  unfold resolveMana.
  change (Z.of_nat (length MANA_LEVELS)) with 6%Z. change (6 - 1)%Z with 5%Z.
  destruct (Z.ltb_spec id 0) as [Hneg|Hpos].
  - destruct (Z.eqb_spec id 5); [lia|reflexivity].
  - destruct (Z.leb_spec 6 id) as [Hbig|Hsmall].
    + destruct (Z.eqb_spec id 5); [lia|reflexivity].
    + assert (H : In id [0; 1; 2; 3; 4; 5]%Z) by (cbn; lia).
      cbn [In] in H. cbn [orb].
      repeat (destruct H as [<-|H]; [reflexivity|]). contradiction.
Qed.

Lemma resolveElementClass_cases id :
  resolveElementClass id
  = Return (if ((id <? 0) || (Z.of_nat (length ELEMENT_CLASSES) <=? id))%Z
            then "NULL" else nth (Z.to_nat id) ELEMENT_CLASSES "").
Proof.
  unfold resolveElementClass.
  destruct (Z.ltb_spec id 0) as [Hneg|Hpos]; [reflexivity|].
  destruct (Z.leb_spec (Z.of_nat (length ELEMENT_CLASSES)) id) as [Hbig|Hsmall];
    [reflexivity|].
  cbn [orb]. unfold getitemZ, getitem.
  destruct (Z.leb_spec 0 id); [|lia].
  destruct (nth_error ELEMENT_CLASSES (Z.to_nat id)) eqn:E.
  - now rewrite (nth_error_nth _ _ _ E).
  - apply nth_error_None in E. lia.
Qed.

End Helpers.

Import Helpers.

(** * Replacing, and the searchable form of the stat circles *)

Module Replace.

Lemma prefix_app_self p r : prefix p (p ++ r) = true.
Proof.
  induction p as [|c p IH]; cbn [append]; [apply prefix_nil|].
  now rewrite prefix_cons, Ascii.eqb_refl.
Qed.

Lemma replace_from_skip old new x r :
  replace_from old new (String.length x) (x ++ r) = replace_from old new 0 r.
Proof. induction x as [|c x IH]; [reflexivity|exact IH]. Qed.

Lemma replace_hit old new r :
  old <> "" -> replace old new (old ++ r) = new ++ replace old new r.
Proof.
  destruct old as [|a o]; [congruence|]. intros _.
  unfold replace. cbn [append replace_from].
  change (String a (o ++ r)) with (String a o ++ r).
  rewrite prefix_app_self.
  replace (String.length (String a o) - 1) with (String.length o)
    by (cbn [String.length]; lia).
  now rewrite replace_from_skip.
Qed.

Lemma replace_miss old new c r :
  prefix old (String c r) = false ->
  replace old new (String c r) = String c (replace old new r).
Proof. intros H. unfold replace. cbn [replace_from]. now rewrite H. Qed.

Lemma replace_nil old new : replace old new "" = "".
Proof. reflexivity. Qed.

Lemma replace_hits old new n r :
  old <> "" ->
  replace old new (flat (repeat old n) ++ r)
  = flat (repeat new n) ++ replace old new r.
Proof.
  intros Hne. induction n as [|n IH]; [reflexivity|].
  cbn [repeat flat]. rewrite !sapp_assoc, replace_hit by assumption.
  now rewrite IH.
Qed.

Lemma count_replace c new s :
  count_char c new = 0 -> count_char c (replace (String c "") new s) = 0.
Proof.
  intros Hnew. unfold replace. induction s as [|a s IH]; [reflexivity|].
  cbn [replace_from]. rewrite prefix_cons, prefix_nil, andb_true_r.
  cbn [String.length Nat.sub].
  destruct (Ascii.eqb_spec c a) as [->|N].
  - now rewrite count_char_app, Hnew, IH.
  - cbn [count_char]. destruct (Ascii.eqb_spec a c); [congruence|exact IH].
Qed.

(** *** The circles *)

Lemma star_of_element_classes :
  getitemZ ELEMENT_CLASSES (-1)
  = Return (String "226" (String "156" (String "177" ""))).
Proof. reflexivity. Qed.

Lemma filled_skips_hollow new r :
  replace filled_circle new (hollow_circle ++ r)
  = hollow_circle ++ replace filled_circle new r.
Proof.
  unfold filled_circle, hollow_circle. cbn [append].
  do 3 (rewrite replace_miss by (now rewrite ?prefix_cons)). reflexivity.
Qed.

Lemma filled_skips_hollows new n :
  replace filled_circle new (flat (repeat hollow_circle n))
  = flat (repeat hollow_circle n).
Proof.
  induction n as [|n IH]; [reflexivity|].
  cbn [repeat flat]. now rewrite filled_skips_hollow, IH.
Qed.

Lemma skips_stars old new n r :
  (forall t, prefix old (String "*" t) = false) ->
  replace old new (flat (repeat "*" n) ++ r)
  = flat (repeat "*" n) ++ replace old new r.
Proof.
  intros Hp. induction n as [|n IH]; [reflexivity|].
  cbn [repeat flat append]. rewrite replace_miss by apply Hp. now rewrite IH.
Qed.

Lemma searchable_circles value max_value :
  makeStringSearchable (toCircleString value max_value)
  = Return (times "*" value).
Proof.
  unfold makeStringSearchable, toCircleString, times.
  rewrite star_of_element_classes. cbn [bind]. f_equal.
  set (n := Z.to_nat value). set (k := Z.to_nat (max_value - value)).
  assert (Hempty : forall m, flat (repeat "" m) = "")
    by (induction m; [reflexivity|assumption]).
  rewrite replace_hits by discriminate.
  rewrite filled_skips_hollows.
  rewrite skips_stars by (intros t; unfold hollow_circle; now rewrite prefix_cons).
  rewrite <- (sapp_nil_r (flat (repeat hollow_circle k))).
  rewrite replace_hits by discriminate.
  rewrite replace_nil, Hempty. cbn [append]. rewrite sapp_nil_r.
  rewrite <- (sapp_nil_r (flat (repeat "*" n))) at 1.
  rewrite skips_stars by (intros t; now rewrite prefix_cons).
  now rewrite replace_nil, sapp_nil_r.
Qed.

Lemma makeStringSearchable_returns s :
  exists r, makeStringSearchable s = Return r.
Proof. unfold makeStringSearchable. rewrite star_of_element_classes. cbn. eauto. Qed.

End Replace.

Import Replace.

(** * The search cache *)

Module Search.

Section Cache.

Variable casefold : string -> string.

Lemma filter_filter {A} (p q : A -> bool) l :
  filter q (filter p l) = filter (fun x => p x && q x) l.
Proof.
  induction l as [|x l IH]; [reflexivity|]. cbn [filter].
  destruct (p x); cbn [filter andb]; [|exact IH].
  destruct (q x); now rewrite IH.
Qed.

Lemma successive_filters (subs : list string) (cache : list IndexedItem) :
  fold_left
    (fun matches substring =>
       filter (fun item => contains substring (string_to_search item))
         matches)
    subs cache
  = filter (fun item =>
              forallb (fun substring =>
                         contains substring (string_to_search item)) subs)
      cache.
Proof.
  revert cache. induction subs as [|s subs IH]; intros cache.
  - cbn. induction cache as [|x cache IHc]; [reflexivity|].
    cbn [filter]. now rewrite <- IHc.
  - cbn [fold_left forallb]. rewrite IH. apply filter_filter.
Qed.

Lemma forallb_mapped {A B} (f : B -> bool) (g : A -> B) l :
  forallb f (map g l) = forallb (fun x => f (g x)) l.
Proof. induction l as [|x l IH]; [reflexivity|]. cbn. now rewrite IH. Qed.

Lemma searchSubstrings_filter cache subs :
  searchSubstrings casefold cache subs
  = map shown (filter (matches_all casefold subs) cache).
Proof.
  unfold searchSubstrings, matches_all. rewrite successive_filters.
  f_equal. apply filter_ext. intros item. now rewrite forallb_mapped.
Qed.

Lemma forallb_permutation {A} (f : A -> bool) l l' :
  Permutation l l' -> forallb f l = forallb f l'.
Proof.
  induction 1; cbn [forallb]; try congruence.
  now rewrite !andb_assoc, (andb_comm (f y)).
Qed.

Lemma searchSubstrings_permutation cache subs subs' :
  Permutation subs subs' ->
  searchSubstrings casefold cache subs = searchSubstrings casefold cache subs'.
Proof.
  intros H. rewrite !searchSubstrings_filter. f_equal.
  apply filter_ext. intros item. now apply forallb_permutation.
Qed.

End Cache.

End Search.

Import Search.

(** * Dictionaries turned around *)

Module Reverse.

Lemma dict_get_set k k' (v : string) d :
  dict_get k (dict_set k' v d)
  = if (k' =? k)%string then Some v else dict_get k d.
Proof.
  induction d as [|[k0 v0] d IH]; simpl.
  - reflexivity.
  - destruct (String.eqb_spec k0 k') as [->|N]; simpl.
    + now destruct (k' =? k)%string.
    + rewrite IH. destruct (String.eqb_spec k0 k) as [->|N'];
        [|reflexivity].
      destruct (String.eqb_spec k' k); [congruence|reflexivity].
Qed.

Lemma reversed_absent (d acc : dict string) v :
  ~ In v (map snd d) ->
  dict_get v (fold_left (fun r kv => dict_set (snd kv) (fst kv) r) d acc)
  = dict_get v acc.
Proof.
  revert acc. induction d as [|[k0 v0] d IH]; intros acc H; [reflexivity|].
  cbn [fold_left fst snd map In] in *. rewrite IH by tauto.
  rewrite dict_get_set. destruct (String.eqb_spec v0 v); [tauto|reflexivity].
Qed.

Lemma reversed_present (d acc : dict string) k v :
  NoDup (map snd d) -> In (k, v) d ->
  dict_get v (fold_left (fun r kv => dict_set (snd kv) (fst kv) r) d acc)
  = Some k.
Proof.
  revert acc. induction d as [|[k0 v0] d IH]; intros acc Hnd Hin;
    [contradiction|].
  cbn [fold_left fst snd map] in *. inversion Hnd as [|? ? Hnot Hnd']; subst.
  destruct Hin as [[= -> ->]|Hin].
  - rewrite reversed_absent by assumption.
    now rewrite dict_get_set, String.eqb_refl.
  - now apply IH.
Qed.

Lemma In_dict_get (d : dict string) k v :
  NoDup (map fst d) -> In (k, v) d -> dict_get k d = Some v.
Proof.
  induction d as [|[k0 v0] d IH]; intros Hnd Hin; [contradiction|].
  cbn [map fst] in Hnd. inversion Hnd as [|? ? Hnot Hnd']; subst.
  simpl. destruct Hin as [[= -> ->]|Hin].
  - now rewrite String.eqb_refl.
  - destruct (String.eqb_spec k0 k) as [->|_]; [|now apply IH].
    exfalso. apply Hnot. now apply (in_map fst) in Hin.
Qed.

Lemma reversed_inverse d k v :
  NoDup (map fst d) -> NoDup (map snd d) ->
  dict_get k d = Some v <-> dict_get v (reversed d) = Some k.
Proof.
  intros Hk Hv. unfold reversed. split.
  - intros H. apply dict_get_In in H. now apply reversed_present.
  - intros H. destruct (in_dec string_dec v (map snd d)) as [Hin|Hout].
    + apply in_map_iff in Hin as ([k' v'] & Hv' & Hin). cbn [snd] in Hv'.
      subst v'. rewrite (reversed_present d [] k' v Hv Hin) in H.
      injection H as ->. now apply In_dict_get.
    + rewrite reversed_absent in H by assumption. discriminate.
Qed.

Lemma distinct_NoDup l : distinct l = true -> NoDup l.
Proof.
  induction l as [|x l IH]; [constructor|]. cbn [distinct].
  intros H. apply andb_true_iff in H as [Hx Hl]. constructor; [|now apply IH].
  intros Hin. apply negb_true_iff in Hx.
  assert (existsb (String.eqb x) l = true); [|congruence].
  apply existsb_exists. exists x. split; [exact Hin|apply String.eqb_refl].
Qed.

End Reverse.

Import Reverse.

(** * Further properties: compiling, and decompiling what was compiled *)

(** X1: the packed text of a script that compiles is made of the packed
    forms of its lines that are not blank, in order and separated by
    newlines, after one empty line when the first line of the script is
    blank, and is closed by a newline; each packed form is the opcode of the
    command, followed, when there are arguments, by a dot and the arguments
    joined by dots. *)
Theorem compile_joins_the_packed_lines :
  forall script code,
    compile script = Compiled code ->
    code = join nl (packed_lines (split nl script)) ++ nl
    /\ forall line command args opcode,
        tokenize line = command :: args ->
        dict_get command REVERSE_SCRIPT_COMMANDS = Some opcode ->
        pack line = opcode ++ match args with
                              | [] => ""
                              | _ :: _ => "." ++ join "." args
                              end.
Proof.
  intros script code H. split.
  - now apply compile_packed_lines.
  - intros line command args opcode Ht Ho.
    now rewrite (pack_good line command args opcode Ht Ho).
Qed.

Lemma compile_joins_the_packed_lines_witness :
  "!.12.0" ++ nl ++ "%" ++ nl
  = join nl (packed_lines
               (split nl ("say 12 0 // hello" ++ nl ++ nl ++ "  exit"))) ++ nl.
Proof.
  exact (proj1 (compile_joins_the_packed_lines
                  ("say 12 0 // hello" ++ nl ++ nl ++ "  exit")
                  ("!.12.0" ++ nl ++ "%" ++ nl) eq_refl)).
Defined.

(** X2: on the text [compile] returned, [decompile] finds every argument
    it reads.  For every script, and every connection that answers a lookup
    with a text or with no row and a card query with rows of a text and an
    integer, when the script compiles its packed text decompiles to some
    text: the IndexError of a missing argument does not arise, nor a
    KeyError.  (The editors decompile what they have just compiled and
    stored.  A connection that answers with a NULL column is not covered:
    there the code adds None to a string and raises TypeError.) *)
Theorem decompile_returns_on_compiled_text :
  forall sql script code,
    compile script = Compiled code ->
    exists text, decompile sql code = Return text.
Proof.
  intros sql script code H. unfold decompile.
  rewrite (compiled_text_lines script code H).
  assert (Hall : Forall enough_arguments
                   (packed_lines (split nl script) ++ [""])).
  { apply Forall_app. split; [|repeat constructor].
    apply packed_lines_enough.
    rewrite compile_unfold in H. cbv zeta in H.
    now destruct (flat_map _ _). }
  destruct (decompile_loop_returns sql _ ("", 0%Z) Hall) as [st ->].
  cbn [bind]. eauto.
Qed.

Lemma decompile_returns_on_compiled_text_witness :
  exists text,
    decompile empty_db ("'.1.2.3" ++ nl ++ "K.a.b" ++ nl ++ "." ++ nl)
    = Return text.
Proof.
  exact (decompile_returns_on_compiled_text empty_db
           ("wizform 1 2 3" ++ nl ++ "goto a.b" ++ nl ++ "catchWizform")
           ("'.1.2.3" ++ nl ++ "K.a.b" ++ nl ++ "." ++ nl) eq_refl).
Defined.

(** X3: [compile] reads a script through its tokens only.  Two scripts
    whose lines hold the same tokens, whatever their indentation, the spaces
    between the tokens and their comments, compile to the same result, be it
    the packed text or the list of errors. *)
Theorem compile_depends_on_tokens_only :
  forall s1 s2,
    map tokenize (split nl s1) = map tokenize (split nl s2) ->
    compile s1 = compile s2.
Proof. exact compile_same_tokens. Qed.

Lemma compile_depends_on_tokens_only_witness :
  compile ("   say  12 0 // greeting" ++ nl ++ "bogus   // unknown")
  = compile ("say 12 0" ++ nl ++ "    bogus").
Proof.
  apply compile_depends_on_tokens_only. reflexivity.
Defined.

(** X4: saving twice stores the same text.  For a script whose every line
    is a known command other than [catchWizform] with exactly the arguments
    it takes, the arguments holding no whitespace character and no dot, and
    a connection whose strings hold no newline: the script compiles, its
    packed text decompiles, and the decompiled text, with its indentation and
    its comments, compiles again to the same packed text. *)
Theorem recompiling_the_decompiled_text :
  forall sql script,
    resolver_newline_free sql ->
    Forall dot_free_command_line (split nl script) ->
    exists code text,
      compile script = Compiled code
      /\ decompile sql code = Return text
      /\ compile text = Compiled code.
Proof.
  intros sql script Hsql Hall.
  destruct (decompile_packed_lines sql (split nl script) "" 0%Z Hall)
    as (text & i & Hloop & Hrep).
  pose proof (compile_dot_free script Hall) as Hcompile.
  exists (join nl (map pack (split nl script)) ++ nl), text.
  split; [exact Hcompile|]. split.
  - unfold decompile, nl. rewrite split_snoc, split_join.
    + fold nl. rewrite Hloop. reflexivity.
    + pose proof (split_not_nil (String NL "") script) as Hne.
      destruct (split (String NL "") script); [congruence|discriminate].
    + apply Forall_forall. intros x Hx. apply in_map_iff in Hx as (l & <- & Hl).
      apply no_whitespace_newline_free, pack_no_whitespace.
      rewrite Forall_forall in Hall. now apply Hall.
  - destruct (reproduced_lines sql (map tokenize (split nl script)) text Hsql)
      as (lines & Hsplit & Hmap); [|exact Hrep|].
    + apply Forall_forall. intros tokens Ht.
      apply in_map_iff in Ht as (l & <- & Hl). apply dot_free_read_tokens.
      * pose proof (split_pieces_free NL script) as Hfree.
        rewrite Forall_forall in Hfree. now apply Hfree.
      * rewrite Forall_forall in Hall. now apply Hall.
    + rewrite <- Hcompile. unfold compile. rewrite Hsplit.
      rewrite compile_loop_trailing_blanks by (repeat constructor).
      unfold enumerate.
      now rewrite (compile_loop_tokens lines (split nl script) 0 ("", []) Hmap).
Qed.

Lemma recompiling_the_decompiled_text_witness :
  exists code text,
    compile ("ifPlayerHasCards 1 2 3 // has it" ++ nl ++ "  say 12 0" ++ nl ++ "endIf")
    = Compiled code
    /\ decompile empty_db code = Return text
    /\ compile text = Compiled code.
Proof.
  apply (recompiling_the_decompiled_text empty_db
           ("ifPlayerHasCards 1 2 3 // has it" ++ nl ++ "  say 12 0" ++ nl
                                               ++ "endIf")).
  - intros q p s. discriminate.
  - repeat constructor.
    + exists "ifPlayerHasCards", ["1"; "2"; "3"], "6".
      repeat split; try discriminate; repeat constructor.
    + exists "say", ["12"; "0"], "!".
      repeat split; try discriminate; repeat constructor.
    + exists "endIf", [], "7".
      repeat split; try discriminate; repeat constructor.
Defined.

(** * Further properties of the decompiler *)

(** X5: a text none of whose lines starts with an opcode is returned as it
    is, every character kept, with one newline added at the end; the
    connection is not consulted. *)
Theorem decompile_copies_unknown_lines :
  forall sql script,
    Forall (fun l => mnemonic_of l = None) (split nl script) ->
    decompile sql script = Return (script ++ nl).
Proof.
  intros sql script H. unfold decompile.
  rewrite (decompile_loop_raw sql _ "" 0%Z H). cbn [bind fst append].
  now rewrite flat_split_lines.
Qed.

Lemma decompile_copies_unknown_lines_witness :
  decompile empty_db ("  # not a command." ++ nl ++ "~.1" ++ nl)
  = Return (("  # not a command." ++ nl ++ "~.1" ++ nl) ++ nl).
Proof.
  apply decompile_copies_unknown_lines. repeat constructor.
Defined.

(** X6: the indentation of the decompiler is always a non-negative
    multiple of four, whatever the lines: an [endIf] without an open [if]
    leaves it at zero instead of making it negative. *)
Theorem indentation_stays_a_multiple_of_four :
  forall sql lines depth,
    final_depth sql lines = Return depth ->
    (0 <= depth)%Z /\ (4 | depth)%Z.
Proof.
  intros sql lines depth. unfold final_depth.
  destruct (decompile_loop sql lines ("", 0%Z)) as [[out i]|e] eqn:E;
    cbn [bind]; [|discriminate].
  intros [= <-]. cbn [snd].
  apply (decompile_loop_depth sql lines "" 0%Z out i); [|exact E].
  split; [lia|now exists 0%Z].
Qed.

Lemma indentation_stays_a_multiple_of_four_witness :
  (0 <= 4)%Z /\ (4 | 4)%Z.
Proof.
  exact (indentation_stays_a_multiple_of_four empty_db
           ["7"; "7"; "=.1"; "=.2"; "7"; "8"] 4%Z eq_refl).
Defined.

(** X7: an argument that is a valid index of a static table, written in
    decimal, is annotated with the entry of the table at that index: for the
    element classes and for the animations, every index below the length of
    the table. *)
Theorem valid_index_is_annotated_with_the_entry :
  forall n,
    (n < length ELEMENT_CLASSES ->
     indexListByMaybeInt ELEMENT_CLASSES (str_of_nat n)
     = Return (nth n ELEMENT_CLASSES ""))
    /\ (n < length AVAILABLE_ANIMATIONS ->
        indexListByMaybeInt AVAILABLE_ANIMATIONS (str_of_nat n)
        = Return (nth n AVAILABLE_ANIMATIONS "")).
Proof.
  assert (Hall : forall table,
             forallb (fun n => result_string_eqb
                                 (indexListByMaybeInt table (str_of_nat n))
                                 (Return (nth n table "")))
               (seq 0 (length table)) = true ->
             forall n, n < length table ->
                       indexListByMaybeInt table (str_of_nat n)
                       = Return (nth n table "")).
  { intros table H n Hn. rewrite forallb_forall in H.
    specialize (H n). rewrite in_seq in H. specialize (H (conj (Nat.le_0_l n) Hn)).
    destruct (indexListByMaybeInt table (str_of_nat n)); [|discriminate].
    cbn in H. apply String.eqb_eq in H. now subst. }
  intros n. split; apply Hall; vm_compute; reflexivity.
Qed.

Lemma valid_index_is_annotated_with_the_entry_witness :
  indexListByMaybeInt ELEMENT_CLASSES "3" = Return "Water"
  /\ indexListByMaybeInt AVAILABLE_ANIMATIONS "40" = Return "JumpHigh".
Proof.
  split.
  - apply (proj1 (valid_index_is_annotated_with_the_entry 3)). vm_compute. lia.
  - apply (proj2 (valid_index_is_annotated_with_the_entry 40)). vm_compute. lia.
Defined.

(** * Further properties: the helpers of the editor and the search cache *)

(** X8: [extractUid] gives back the uid that was written between the
    first pair of parentheses: for a text made of a prefix without an opening
    parenthesis, the uid in parentheses and anything after it, where the uid
    holds no parenthesis, the result is the uid.  (The name boxes and the
    result list write their entries as [String(uid) name], [NPC(uid) name]
    and read the uid back this way.) *)
Theorem extractUid_returns_the_uid :
  forall pre uid post,
    count_char "(" pre = 0 ->
    count_char "(" uid = 0 ->
    count_char ")" uid = 0 ->
    extractUid (pre ++ "(" ++ uid ++ ")" ++ post) = Return uid.
Proof. exact extractUid_reads_uid. Qed.

Lemma extractUid_returns_the_uid_witness :
  extractUid ("String" ++ "(" ++ "A31B0F2" ++ ")" ++ " Rufus (the elder)")
  = Return "A31B0F2".
Proof.
  apply (extractUid_returns_the_uid "String" "A31B0F2" " Rufus (the elder)");
    reflexivity.
Defined.

(** X9: [extractUid] raises [IndexError] exactly on the texts that hold no
    opening parenthesis; on every other text it returns. *)
Theorem extractUid_raises_without_parenthesis :
  forall s, extractUid s = Raise IndexError <-> count_char "(" s = 0.
Proof. exact extractUid_raises. Qed.

Lemma extractUid_raises_without_parenthesis_witness :
  extractUid "Rufus" = Raise IndexError.
Proof.
  apply (proj2 (extractUid_raises_without_parenthesis "Rufus")). reflexivity.
Defined.

(** X10: the entity id of a card id is its bits 16 to 31: it lies between
    0 and 65535 for every integer, negative ones included, and for a card id
    put together from a 16-bit entity id, 16 low bits and any higher part it
    is that entity id. *)
Theorem getCardEntityId_is_the_second_halfword :
  (forall card_id, (0 <= getCardEntityId card_id < 65536)%Z)
  /\ (forall high entity low,
         (0 <= entity < 65536)%Z -> (0 <= low < 65536)%Z ->
         getCardEntityId (high * 4294967296 + entity * 65536 + low) = entity).
Proof. split; [exact getCardEntityId_range|exact getCardEntityId_field]. Qed.

Lemma getCardEntityId_is_the_second_halfword_witness :
  getCardEntityId (-1 * 4294967296 + 77 * 65536 + 513) = 77%Z.
Proof.
  apply (proj2 getCardEntityId_is_the_second_halfword (-1) 77 513)%Z; lia.
Defined.

(** X11: the two bounded lookups never raise.  [resolveMana] answers
    "NULL" for every id below 0 or above 5, the string of the last entry for
    5 and the level in decimal for 0 to 4; the lookup of an element class
    answers "NULL" for every id below 0 or not below the length of the table,
    and the entry otherwise: a negative id never reads the table from its
    end. *)
Theorem bounded_lookups_never_raise :
  forall id,
    resolveMana id
    = Return (Str (if ((id <? 0) || (6 <=? id))%Z then "NULL"
                   else nth (Z.to_nat id) ["5"; "15"; "30"; "40"; "55"] "-/-"))
    /\ resolveElementClass id
       = Return (if ((id <? 0) || (Z.of_nat (length ELEMENT_CLASSES) <=? id))%Z
                 then "NULL" else nth (Z.to_nat id) ELEMENT_CLASSES "").
Proof.
  intros id. split; [apply resolveMana_cases|apply resolveElementClass_cases].
Qed.

(** X12: made searchable, a row of circles is as many stars as it has
    filled circles: the filled circles become stars and the hollow ones
    disappear, for every value and maximum. *)
Theorem searchable_circles_are_stars :
  forall value max_value,
    makeStringSearchable (toCircleString value max_value)
    = Return (times "*" value).
Proof. exact searchable_circles. Qed.

(** X13: [searchSubstrings] lists, in the order of the cache, exactly the
    items whose search string holds every case-folded substring; so the
    result does not depend on the order of the substrings, nor on
    repetitions among them. *)
Theorem search_is_conjunctive_and_order_independent :
  forall (casefold : string -> string) cache,
    (forall substrings,
        searchSubstrings casefold cache substrings
        = map shown (filter (matches_all casefold substrings) cache))
    /\ (forall substrings substrings',
           Permutation substrings substrings' ->
           searchSubstrings casefold cache substrings
           = searchSubstrings casefold cache substrings')
    /\ (forall substrings substring,
           In substring substrings ->
           searchSubstrings casefold cache (substring :: substrings)
           = searchSubstrings casefold cache substrings).
Proof.
  intros casefold cache. repeat split.
  - apply searchSubstrings_filter.
  - apply searchSubstrings_permutation.
  - intros substrings substring Hin. rewrite !searchSubstrings_filter.
    f_equal. apply filter_ext. intros item. unfold matches_all.
    cbn [forallb].
    destruct (forallb _ substrings) eqn:E; [|apply andb_false_r].
    rewrite forallb_forall in E. now rewrite (E substring Hin).
Qed.

Lemma search_is_conjunctive_and_order_independent_witness :
  let cache :=
    [ {| sort_key := "a"; displayed_text := "NPC(1) Rafi";
         string_to_search := "anpc(1) rafi"; search_suggestion := "Rafi" |};
      {| sort_key := "b"; displayed_text := "Item(2) Key";
         string_to_search := "bitem(2) key"; search_suggestion := "Key" |} ] in
  searchSubstrings (fun s => s) cache ["rafi"; "npc"]
  = searchSubstrings (fun s => s) cache ["npc"; "rafi"].
Proof.
  cbv zeta.
  apply (proj1 (proj2 (search_is_conjunctive_and_order_independent
                         (fun s => s) _))).
  apply perm_swap.
Defined.

(** X14: searching a cache to which another was appended gives the results
    of the first followed by the results of the second. *)
Theorem search_of_appended_caches :
  forall (casefold : string -> string) cache other_cache substrings,
    searchSubstrings casefold (appendOtherCache cache other_cache) substrings
    = (searchSubstrings casefold cache substrings
       ++ searchSubstrings casefold other_cache substrings)%list.
Proof.
  intros casefold cache other_cache substrings. unfold appendOtherCache.
  rewrite !searchSubstrings_filter. now rewrite filter_app, map_app.
Qed.

(** X15: a query is read as its words: two queries with the same words,
    in any order and with any number of spaces between and around them, find
    the same entries; a query without words finds every entry. *)
Theorem query_words_in_any_order :
  forall (casefold : string -> string) db_cache,
    (forall query query',
        Permutation (splitByWhitespace query) (splitByWhitespace query') ->
        searchDBCache casefold db_cache query
        = searchDBCache casefold db_cache query')
    /\ (forall a b,
           searchDBCache casefold db_cache (a ++ " " ++ b)
           = searchDBCache casefold db_cache (b ++ " " ++ a))
    /\ (forall query,
           splitByWhitespace query = [] ->
           searchDBCache casefold db_cache query = map shown db_cache).
Proof.
  intros casefold db_cache. unfold searchDBCache. repeat split.
  - intros query query'. apply searchSubstrings_permutation.
  - intros a b. apply searchSubstrings_permutation.
    cbn [append]. rewrite !splitByWhitespace_app. apply Permutation_app_comm.
  - intros query ->. rewrite searchSubstrings_filter. f_equal.
    induction db_cache as [|item l IH]; [reflexivity|].
    cbn [filter matches_all forallb]. now rewrite IH.
Qed.

Lemma query_words_in_any_order_witness :
  searchDBCache (fun s => s) [] "  rafi   npc "
  = searchDBCache (fun s => s) [] "npc rafi".
Proof.
  apply (proj1 (query_words_in_any_order (fun s => s) [])).
  apply perm_swap.
Defined.

(** X16: [appendToIndex] always returns, and puts one item at the end of
    the cache, the items before it untouched; the text it shows holds no
    newline, so a cache filled this way shows every item on one line. *)
Theorem appendToIndex_adds_a_one_line_item :
  forall (casefold : string -> string) cache
         key text suggestion extra_info,
    Forall one_line cache ->
    exists item,
      appendToIndex casefold cache key text suggestion extra_info
      = Return (cache ++ [item])%list
      /\ one_line item
      /\ search_suggestion item = suggestion
      /\ Forall one_line (cache ++ [item]).
Proof.
  intros casefold cache key text suggestion extra_info Hall.
  unfold appendToIndex. cbv zeta.
  destruct (makeStringSearchable_returns
              (casefold key ++ casefold text ++ casefold extra_info)) as [r ->].
  cbn [bind]. eexists. split; [reflexivity|].
  assert (H1 : one_line
                 {| sort_key := casefold key;
                    displayed_text := replace nl " " text;
                    string_to_search := r;
                    search_suggestion := suggestion |}).
  { unfold one_line, nl. cbn [displayed_text]. now apply count_replace. }
  repeat split; [exact H1|].
  apply Forall_app. split; [exact Hall|]. now constructor.
Qed.

Lemma appendToIndex_adds_a_one_line_item_witness :
  exists item,
    appendToIndex (fun s => s) [] "key" ("two" ++ nl ++ "lines") "hint" ""
    = Return ([] ++ [item])%list
    /\ one_line item
    /\ search_suggestion item = "hint"
    /\ Forall one_line ([] ++ [item]).
Proof.
  apply (appendToIndex_adds_a_one_line_item (fun s => s) []). constructor.
Defined.

(** X17: [splitByWhitespace] returns tokens that are not empty and hold no
    space; the tokens of two texts with a space between them are the tokens
    of the first followed by those of the second; and the tokens joined by
    single spaces split into the same tokens again. *)
Theorem splitByWhitespace_normalises_spaces :
  (forall s,
      Forall (fun t => t <> "" /\ count_char " " t = 0) (splitByWhitespace s))
  /\ (forall a b,
         splitByWhitespace (a ++ " " ++ b)
         = (splitByWhitespace a ++ splitByWhitespace b)%list)
  /\ (forall s,
         splitByWhitespace (join " " (splitByWhitespace s))
         = splitByWhitespace s).
Proof.
  assert (Hplain : forall s,
             Forall (fun t => t <> "" /\ count_char " " t = 0)
               (splitByWhitespace s)).
  { intros s. unfold splitByWhitespace. apply Forall_forall. intros t Ht.
    apply filter_In in Ht as [Ht Hne]. split.
    - intros ->. discriminate.
    - pose proof (split_pieces_free " " s) as H.
      rewrite Forall_forall in H. now apply H. }
  repeat split.
  - exact Hplain.
  - intros a b. apply splitByWhitespace_app.
  - intros s. apply splitByWhitespace_join, Hplain.
Qed.

(** X18: the loop that fills [REVERSE_SCRIPT_COMMANDS] turns a dictionary
    with distinct keys and distinct values into its inverse; the command
    table is such a dictionary, so an opcode has a mnemonic exactly when that
    mnemonic has this opcode. *)
Theorem reverse_table_is_the_inverse :
  (forall d k v,
      NoDup (map fst d) -> NoDup (map snd d) ->
      dict_get k d = Some v <-> dict_get v (reversed d) = Some k)
  /\ REVERSE_SCRIPT_COMMANDS = reversed SCRIPT_COMMANDS
  /\ (forall opcode command,
         dict_get opcode SCRIPT_COMMANDS = Some command
         <-> dict_get command REVERSE_SCRIPT_COMMANDS = Some opcode).
Proof.
  split; [exact reversed_inverse|]. split; [reflexivity|].
  intros opcode command.
  apply (reversed_inverse SCRIPT_COMMANDS); apply distinct_NoDup; reflexivity.
Qed.

Lemma reverse_table_is_the_inverse_witness :
  dict_get "x" [("x", "one"); ("y", "two")] = Some "one"
  <-> dict_get "one" (reversed [("x", "one"); ("y", "two")]) = Some "x".
Proof.
  apply (proj1 reverse_table_is_the_inverse).
  - apply distinct_NoDup. reflexivity.
  - apply distinct_NoDup. reflexivity.
Defined.
